(** * Campus Internship & Placement Portal API: matcher and application lifecycle

    A shallow embedding of [main.py] and [schemas.py].  Documents are Python
    dictionaries with string keys ([gmap string value]); a collection is the
    list of its documents in insertion order; the database is a map from
    collection names to collections and is threaded explicitly through every
    handler.  Exceptions are results of the handlers. *)

From stdpp Require Import gmap strings list fin_maps sorting pretty.
From Stdlib Require Import ZArith Lia Ascii.

Open Scope Z_scope.

(** ** Python values and the primitives the handlers use *)

(** The values a stored document or a request body can hold: [None], booleans,
    integers, strings, lists of strings (skill tags), [datetime] (seconds on
    some clock) and [bson.ObjectId] (its 96-bit number). *)
Inductive value :=
| VNone
| VBool (b : bool)
| VInt (n : Z)
| VStr (s : string)
| VList (l : list string)
| VDate (t : Z)
| VOid (o : N).

Global Instance value_eq_dec : EqDecision value.
Proof. solve_decision. Defined.

Abbreviation doc := (gmap string value).
Abbreviation collection := (list (gmap string value)).
Abbreviation database := (gmap string (list (gmap string value))).

(** Python truthiness: [bool(v)]. *)
Definition truthy (v : value) : bool :=
  match v with
  | VNone => false
  | VBool b => b
  | VInt n => negb (n =? 0)
  | VStr s => negb (String.eqb s "")
  | VList l => match l with [] => false | _ => true end
  | VDate _ => true
  | VOid _ => true
  end.

(** Python [a == b]; [True == 1] and [False == 0] as in Python. *)
Definition py_eq (a b : value) : bool :=
  match a, b with
  | VBool x, VInt n | VInt n, VBool x => n =? (if x then 1 else 0)
  | _, _ => bool_decide (a = b)
  end.

(** [a and b] evaluates to [a] when [a] is falsy and to [b] otherwise. *)
Definition py_and (a b : value) : value := if truthy a then b else a.

(** [d.get(k)] and [d.get(k, dflt)]. *)
Definition get (d : doc) (k : string) : value := default VNone (d !! k).
Definition get_default (d : doc) (k : string) (dflt : value) : value :=
  default dflt (d !! k).

(** The one-character strings of a string, as iterating over a [str] yields. *)
Fixpoint chars (s : string) : list string :=
  match s with
  | EmptyString => []
  | String c s' => String c EmptyString :: chars s'
  end.

(** [set(v)]: the elements of a list, the characters of a string; [None] is
    the [TypeError] raised for a value that is not iterable. *)
Definition py_set (v : value) : option (gset string) :=
  match v with
  | VList l => Some (list_to_set l)
  | VStr s => Some (list_to_set (chars s))
  | _ => None
  end.

(** [d1 | d2]: the keys of [d2] win. *)
Definition dict_or (d1 d2 : doc) : doc := d2 ∪ d1.

(** [str.lower] on ASCII letters. *)
Definition lower_ascii (c : ascii) : ascii :=
  let n := nat_of_ascii c in
  if ((65 <=? n)%nat && (n <=? 90)%nat)%bool then ascii_of_nat (n + 32) else c.

Fixpoint lower (s : string) : string :=
  match s with
  | EmptyString => EmptyString
  | String c s' => String (lower_ascii c) (lower s')
  end.

(** ** Exceptions *)

Inductive exn :=
| HTTPException (status_code : Z) (detail : string)
| InvalidId
| TypeError.

Inductive result (A : Type) :=
| Ok (a : A)
| Raise (e : exn).
Arguments Ok {A} a.
Arguments Raise {A} e.

Global Instance exn_eq_dec : EqDecision exn.
Proof. solve_decision. Defined.

Global Instance result_eq_dec {A} `{EqDecision A} : EqDecision (result A).
Proof. solve_decision. Defined.

(** ** The document store (pymongo collections) *)

(** An equality filter [{k1: v1, ...}] matches a document that holds [vi]
    under every [ki]. *)
Definition doc_matches (filt d : doc) : Prop :=
  map_Forall (λ k v, d !! k = Some v) filt.

Global Instance doc_matches_dec filt d : Decision (doc_matches filt d).
Proof. unfold doc_matches. apply _. Defined.

(** [db[name]]: a collection that was never written is empty. *)
Definition db_get (db : database) (name : string) : collection :=
  default [] (db !! name).

(** [collection.find(filt)], in insertion order. *)
Definition find (filt : doc) (c : collection) : collection :=
  filter (doc_matches filt) c.

(** [collection.find_one(filt)]: the first match, or [None]. *)
Definition find_one (filt : doc) (c : collection) : option doc :=
  snd <$> list_find (doc_matches filt) c.

(** [collection.update_one(filt, {"$set": upd})]: the first match takes the
    fields of [upd]; the result carries [matched_count]. *)
Definition update_one (filt upd : doc) (c : collection) : collection * Z :=
  match list_find (doc_matches filt) c with
  | Some (i, d) => (<[i := upd ∪ d]> c, 1)
  | None => (c, 0)
  end.

(** [collection.insert_one(d)]: a document without ["_id"] gets the
    identity [new_id] the driver generates; returns [inserted_id]. *)
Definition insert_one (d : doc) (new_id : N) (c : collection) : collection * value :=
  match d !! "_id" with
  | Some v => (c ++ [d], v)
  | None => (c ++ [<["_id" := VOid new_id]> d], VOid new_id)
  end.

(** A found document in a condition: [if existing:] / [if not student:]. *)
Definition found (r : option doc) : bool :=
  match r with
  | None => false
  | Some d => negb (bool_decide (d = ∅))
  end.

(** [collection.update_one] and [collection.insert_one] on [db[name]]; an
    update that matches nothing leaves the database as it is. *)
Definition db_update_one (db : database) (name : string) (filt upd : doc)
  : database * Z :=
  match list_find (doc_matches filt) (db_get db name) with
  | Some _ => (<[name := (update_one filt upd (db_get db name)).1]> db, 1)
  | None => (db, 0)
  end.

Definition db_insert_one (db : database) (name : string) (d : doc) (new_id : N)
  : database * value :=
  let '(c, inserted_id) := insert_one d new_id (db_get db name) in
  (<[name := c]> db, inserted_id).

(** ** schemas.py *)

Definition opt_str (o : option string) : value := from_option VStr VNone o.
Definition opt_int (o : option Z) : value := from_option VInt VNone o.
Definition opt_date (o : option Z) : value := from_option VDate VNone o.

Module User.
Inductive Role := student | mentor | placement | recruiter.

Definition role_str (r : Role) : string :=
  match r with
  | student => "student" | mentor => "mentor"
  | placement => "placement" | recruiter => "recruiter"
  end.

Record t := {
  name : string;
  email : string;
  role : Role;
  department : option string;
  skills : list string;
  resume_url : option string;
  is_active : bool
}.

Definition model_dump (u : t) : doc :=
  {[ "name" := VStr (name u);
     "email" := VStr (email u);
     "role" := VStr (role_str (role u));
     "department" := opt_str (department u);
     "skills" := VList (skills u);
     "resume_url" := opt_str (resume_url u);
     "is_active" := VBool (is_active u) ]}.
End User.

Module Opening.
Record t := {
  title : string;
  company : string;
  department : option string;
  description : option string;
  skills_required : list string;
  stipend_min : option Z;
  stipend_max : option Z;
  placement_conversion_prob : option Z;
  deadline : option Z;
  created_by : option string
}.

Definition model_dump (o : t) : doc :=
  {[ "title" := VStr (title o);
     "company" := VStr (company o);
     "department" := opt_str (department o);
     "description" := opt_str (description o);
     "skills_required" := VList (skills_required o);
     "stipend_min" := opt_int (stipend_min o);
     "stipend_max" := opt_int (stipend_max o);
     "placement_conversion_prob" := opt_int (placement_conversion_prob o);
     "deadline" := opt_date (deadline o);
     "created_by" := opt_str (created_by o) ]}.
End Opening.

Module Application.
(** The [Literal[...]] of the [status] field. *)
Inductive Status :=
| applied | under_review | approved | rejected | interview_scheduled
| offered | accepted | rejected_offer | completed.

Definition status_str (s : Status) : string :=
  match s with
  | applied => "applied"
  | under_review => "under_review"
  | approved => "approved"
  | rejected => "rejected"
  | interview_scheduled => "interview_scheduled"
  | offered => "offered"
  | accepted => "accepted"
  | rejected_offer => "rejected_offer"
  | completed => "completed"
  end.

Record t := {
  student_id : string;
  opening_id : string;
  status : Status;
  mentor_id : option string;
  interview_datetime : option Z;
  interview_location : option string;
  feedback : option string;
  certificate_url : option string
}.

(** A request body that gives only the two required fields: every other
    field takes its [Field(...)] default. *)
Definition defaults (student_id opening_id : string) : t :=
  {| student_id := student_id; opening_id := opening_id; status := applied;
     mentor_id := None; interview_datetime := None;
     interview_location := None; feedback := None;
     certificate_url := None |}.

Definition model_dump (a : t) : doc :=
  {[ "student_id" := VStr (student_id a);
     "opening_id" := VStr (opening_id a);
     "status" := VStr (status_str (status a));
     "mentor_id" := opt_str (mentor_id a);
     "interview_datetime" := opt_date (interview_datetime a);
     "interview_location" := opt_str (interview_location a);
     "feedback" := opt_str (feedback a);
     "certificate_url" := opt_str (certificate_url a) ]}.
End Application.

Module Notification.
Record t := {
  user_id : string;
  message : string;
  read : bool
}.

Definition model_dump (n : t) : doc :=
  {[ "user_id" := VStr (user_id n);
     "message" := VStr (message n);
     "read" := VBool (read n) ]}.
End Notification.

(** ** main.py *)

Module ApplicationUpdate.
Record t := {
  status : option string;
  mentor_id : option string;
  interview_datetime : option Z;
  interview_location : option string;
  feedback : option string
}.

Definition model_dump (p : t) : doc :=
  {[ "status" := opt_str (status p);
     "mentor_id" := opt_str (mentor_id p);
     "interview_datetime" := opt_date (interview_datetime p);
     "interview_location" := opt_str (interview_location p);
     "feedback" := opt_str (feedback p) ]}.
End ApplicationUpdate.

(** [model_cls.__name__.lower()], on the class name. *)
Definition to_collection_name (model_cls : string) : string := lower model_cls.

(** Exceptions propagate through a sequence of statements. *)
Global Instance result_bind : MBind result := λ A B k r,
  match r with
  | Ok a => k a
  | Raise e => Raise e
  end.

(** [l.sort(key=key, reverse=True)]: Python's sort is stable, also under
    [reverse]; insertion from the right keeps an element ahead of the later
    elements of the same key. *)
Fixpoint insert_reverse {A} (key : A → Z) (x : A) (l : list A) : list A :=
  match l with
  | [] => [x]
  | y :: l' => if key x <? key y then y :: insert_reverse key x l' else x :: l
  end.

Definition sort_reverse {A} (key : A → Z) (l : list A) : list A :=
  foldr (insert_reverse key) [] l.

(** [l[:n]]: a negative bound counts from the end. *)
Definition slice_to {A} (n : Z) (l : list A) : list A :=
  if n <? 0 then take (Z.to_nat (Z.of_nat (length l) + n)) l
  else take (Z.to_nat n) l.

(** ** Identities and dates on concrete requests

    One implementation of the library functions that the handlers take as
    parameters, for evaluating them: an identity is written as 24
    hexadecimal digits and prints as the same digits in lower case; a date
    prints as its number. *)

Definition hex_digit (c : ascii) : option N :=
  let n := N_of_ascii c in
  if ((48 <=? n) && (n <=? 57))%N then Some (n - 48)%N
  else if ((97 <=? n) && (n <=? 102))%N then Some (n - 87)%N
  else if ((65 <=? n) && (n <=? 70))%N then Some (n - 55)%N
  else None.

Fixpoint parse_hex (s : string) (acc : N) : option N :=
  match s with
  | EmptyString => Some acc
  | String c s' =>
      match hex_digit c with
      | Some d => parse_hex s' (16 * acc + d)%N
      | None => None
      end
  end.

Definition hex_ObjectId (s : string) : option N :=
  if bool_decide (String.length s = 24%nat) then parse_hex s 0%N else None.

Definition hex_char (d : N) : ascii :=
  if (d <? 10)%N then ascii_of_N (48 + d) else ascii_of_N (87 + d).

Fixpoint hex_str (digits : nat) (n : N) (acc : string) : string :=
  match digits with
  | O => acc
  | S digits' => hex_str digits' (n / 16)%N (String (hex_char (n mod 16)%N) acc)
  end.

Definition dec_isoformat (t : Z) : string := pretty t.

Definition hex_str_value (v : value) : string :=
  match v with
  | VNone => "None"
  | VBool b => if b then "True" else "False"
  | VInt n => pretty n
  | VStr s => s
  | VList l => "[" +:+ String.concat ", " l +:+ "]"
  | VDate t => dec_isoformat t
  | VOid o => hex_str 24 o EmptyString
  end.

(** ** A stored scenario

    The student and the two openings of the specification's scenario, as the
    store holds them, and an application of that student. *)

Definition student1 : doc :=
  <["_id" := VOid 1]>
    (User.model_dump
       {| User.name := "Ada"; User.email := "ada@example.com";
          User.role := User.student; User.department := Some "CS";
          User.skills := ["python"; "sql"]; User.resume_url := None;
          User.is_active := true |}).

Definition opening1 : doc :=
  <["_id" := VOid 2]>
    (Opening.model_dump
       {| Opening.title := "Backend intern"; Opening.company := "Acme";
          Opening.department := Some "CS"; Opening.description := None;
          Opening.skills_required := ["python"];
          Opening.stipend_min := None; Opening.stipend_max := None;
          Opening.placement_conversion_prob := Some 0;
          Opening.deadline := None; Opening.created_by := None |}).

Definition opening2 : doc :=
  <["_id" := VOid 3]>
    (Opening.model_dump
       {| Opening.title := "Data intern"; Opening.company := "Initech";
          Opening.department := Some "EE"; Opening.description := None;
          Opening.skills_required := ["python"; "sql"; "ml"];
          Opening.stipend_min := None; Opening.stipend_max := None;
          Opening.placement_conversion_prob := Some 0;
          Opening.deadline := None; Opening.created_by := None |}).

Definition application1 : doc :=
  <["_id" := VOid 4]>
    (Application.model_dump (Application.defaults "s1" "o1")).

Definition campus : database :=
  {[ "user" := [student1];
     "opening" := [opening1; opening2];
     "application" := [application1] ]}.

(** Two request bodies that give more than the required fields: one names a
    certificate, one asks for status "completed" and a mentor. *)
Definition apply_with_certificate : Application.t :=
  {| Application.student_id := "s2"; Application.opening_id := "o1";
     Application.status := Application.applied;
     Application.mentor_id := None; Application.interview_datetime := None;
     Application.interview_location := None; Application.feedback := None;
     Application.certificate_url := Some "https://example.com/mine.pdf" |}.

Definition apply_completed : Application.t :=
  {| Application.student_id := "s2"; Application.opening_id := "o2";
     Application.status := Application.completed;
     Application.mentor_id := Some "m1"; Application.interview_datetime := None;
     Application.interview_location := None; Application.feedback := None;
     Application.certificate_url := None |}.

(** A patch that only sets the status. *)
Definition patch_status (s : string) : ApplicationUpdate.t :=
  {| ApplicationUpdate.status := Some s; ApplicationUpdate.mentor_id := None;
     ApplicationUpdate.interview_datetime := None;
     ApplicationUpdate.interview_location := None;
     ApplicationUpdate.feedback := None |}.

(** A stored notification of user "u1", still unread, and a profile to
    submit. *)
Definition note1 : doc :=
  <["_id" := VOid 6]>
    (Notification.model_dump
       {| Notification.user_id := "u1";
          Notification.message := "Interview on Monday";
          Notification.read := false |}).

Definition campus_notes : database := <["notification" := [note1]]> campus.

Definition note1_id : string := "000000000000000000000006".

Definition profile2 : User.t :=
  {| User.name := "Bo"; User.email := "bo@example.com";
     User.role := User.student; User.department := Some "EE";
     User.skills := ["ml"; "sql"; "ml"]; User.resume_url := None;
     User.is_active := true |}.

(** The identities of [student1] and [application1] as a request gives them. *)
Definition student1_id : string := "000000000000000000000001".
Definition application1_id : string := "000000000000000000000004".

Section Portal.

(** The library functions the handlers call on identities and dates:
    [bson.ObjectId(s)] ([None] is [InvalidId]), [str(v)] and
    [datetime.isoformat]. *)
Variable ObjectId : string → option N.
Variable str : value → string.
Variable isoformat : Z → string.

Definition serialize_doc (d : doc) : doc :=
  let out := delete "_id" d in
  let out :=
    match d !! "_id" with
    | None | Some VNone => out
    | Some _id => <["id" := VStr (str _id)]> out
    end in
  (λ v, match v with VDate t => VStr (isoformat t) | _ => v end) <$> out.

(** Modelled from the spec: [create_document] of database.py, which is not
    among the sources.  The store's [insert(record) → generated identity];
    the record carries its creation time and the last-updated timestamp
    that the data model sets on every mutation. *)
Definition create_document (db : database) (collection_name : string)
    (data : doc) (new_id : N) (now : Z) : database * string :=
  let data_dict := <["updated_at" := VDate now]> (<["created_at" := VDate now]> data) in
  let '(db', inserted_id) := db_insert_one db collection_name data_dict new_id in
  (db', str inserted_id).

(** Modelled from the spec: [get_documents] of database.py, which is not
    among the sources.  The store's [findMany(filter) → sequence of
    records], with equality on the fields of the filter. *)
Definition get_documents (db : database) (collection_name : string)
    (filter_dict : doc) : collection :=
  find filter_dict (db_get db collection_name).

(** *** Users and openings *)

Definition create_user (db : database) (user : User.t) (new_id : N) (now : Z)
  : result doc * database :=
  let '(db', user_id) :=
    create_document db (to_collection_name "User") (User.model_dump user) new_id now in
  (Ok {[ "id" := VStr user_id ]}, db').

Definition create_opening (db : database) (opening : Opening.t) (new_id : N) (now : Z)
  : result doc * database :=
  let '(db', opening_id) :=
    create_document db (to_collection_name "Opening") (Opening.model_dump opening) new_id now in
  (Ok {[ "id" := VStr opening_id ]}, db').

(** The body of the loop of [recommend_openings]. *)
Definition score_opening (student : doc) (student_skills : gset string) (o : doc)
  : result Z :=
  match py_set (get_default o "skills_required" (VList [])) with
  | None => Raise TypeError
  | Some req =>
      let overlap := Z.of_nat (size (student_skills ∩ req)) in
      Ok (overlap +
          (if truthy (py_and (get student "department")
                        (VBool (py_eq (get student "department") (get o "department"))))
           then 1 else 0))
  end.

Fixpoint score_loop (student : doc) (student_skills : gset string)
    (openings : collection) (scored : list (Z * doc)) : result (list (Z * doc)) :=
  match openings with
  | [] => Ok scored
  | o :: openings' =>
      score ← score_opening student student_skills o;
      score_loop student student_skills openings' (scored ++ [(score, o)])
  end.

Definition recommend_openings (db : database) (student_id : string) (limit : Z)
  : result (list doc) :=
  match ObjectId student_id with
  | None => Raise InvalidId
  | Some oid =>
      let student :=
        find_one {[ "_id" := VOid oid ]} (db_get db (to_collection_name "User")) in
      if negb (found student) then Raise (HTTPException 404 "Student not found")
      else
        let student := default ∅ student in
        match py_set (get_default student "skills" (VList [])) with
        | None => Raise TypeError
        | Some student_skills =>
            let openings := find ∅ (db_get db (to_collection_name "Opening")) in
            scored ← score_loop student student_skills openings [];
            let scored := sort_reverse fst scored in
            Ok ((λ '(s, o), dict_or (serialize_doc o) {[ "match_score" := VInt s ]})
                  <$> slice_to limit scored)
        end
  end.

(** *** Applications *)

Definition create_application (db : database) (apply : Application.t)
    (new_id : N) (now : Z) : result doc * database :=
  let existing :=
    find_one {[ "student_id" := VStr (Application.student_id apply);
                "opening_id" := VStr (Application.opening_id apply) ]}
      (db_get db (to_collection_name "Application")) in
  if found existing
  then (Raise (HTTPException 400 "Application already exists"), db)
  else
    let '(db', app_id) :=
      create_document db (to_collection_name "Application")
        (Application.model_dump apply) new_id now in
    (Ok {[ "id" := VStr app_id ]}, db').

(** [if x: filt[k] = x] for an optional query parameter. *)
Definition add_filter (k : string) (x : option string) (filt : doc) : doc :=
  if truthy (opt_str x) then <[k := opt_str x]> filt else filt.

Definition list_applications (db : database)
    (student_id opening_id mentor_id : option string) : list doc :=
  let filt : doc := ∅ in
  let filt := add_filter "student_id" student_id filt in
  let filt := add_filter "opening_id" opening_id filt in
  let filt := add_filter "mentor_id" mentor_id filt in
  let docs := get_documents db (to_collection_name "Application") filt in
  serialize_doc <$> docs.

(** The dictionary that [update_application] hands to [$set]. *)
Definition update_dict_of (application_id : string) (payload : ApplicationUpdate.t)
    (now : Z) : doc :=
  let update_dict : doc :=
    filter (λ kv, kv.2 ≠ VNone) (ApplicationUpdate.model_dump payload) in
  let update_dict :=
    if py_eq (get update_dict "status") (VStr "completed")
    then <["certificate_url" :=
             VStr ("https://certs.example.com/" +:+ application_id +:+ ".pdf")]>
           update_dict
    else update_dict in
  <["updated_at" := VDate now]> update_dict.

Definition update_application (db : database) (application_id : string)
    (payload : ApplicationUpdate.t) (now : Z) : result doc * database :=
  match ObjectId application_id with
  | None => (Raise (HTTPException 400 "Invalid application id"), db)
  | Some _id =>
      let update_dict := update_dict_of application_id payload now in
      let '(db', matched_count) :=
        db_update_one db (to_collection_name "Application")
          {[ "_id" := VOid _id ]} update_dict in
      if matched_count =? 0
      then (Raise (HTTPException 404 "Application not found"), db')
      else
        match find_one {[ "_id" := VOid _id ]}
                (db_get db' (to_collection_name "Application")) with
        | Some d => (Ok (serialize_doc d), db')
        | None => (Raise TypeError, db')
        end
  end.

(** *** Users, again, and notifications *)

Definition list_users (db : database) (role email : option string) : list doc :=
  let filt : doc := ∅ in
  let filt := add_filter "role" role filt in
  let filt := add_filter "email" email filt in
  let docs := get_documents db (to_collection_name "User") filt in
  serialize_doc <$> docs.

Definition create_notification (db : database) (note : Notification.t)
    (new_id : N) (now : Z) : result doc * database :=
  let '(db', note_id) :=
    create_document db (to_collection_name "Notification")
      (Notification.model_dump note) new_id now in
  (Ok {[ "id" := VStr note_id ]}, db').

Definition list_notifications (db : database) (user_id : string)
    (unread_only : bool) : list doc :=
  let filt : doc := {[ "user_id" := VStr user_id ]} in
  let filt := if unread_only then <["read" := VBool false]> filt else filt in
  let docs := get_documents db (to_collection_name "Notification") filt in
  serialize_doc <$> docs.

Definition mark_notification_read (db : database) (notification_id : string)
  : result doc * database :=
  match ObjectId notification_id with
  | None => (Raise (HTTPException 400 "Invalid notification id"), db)
  | Some _id =>
      let '(db', matched_count) :=
        db_update_one db (to_collection_name "Notification")
          {[ "_id" := VOid _id ]} {[ "read" := VBool true ]} in
      if matched_count =? 0
      then (Raise (HTTPException 404 "Notification not found"), db')
      else
        match find_one {[ "_id" := VOid _id ]}
                (db_get db' (to_collection_name "Notification")) with
        | Some d => (Ok (serialize_doc d), db')
        | None => (Raise TypeError, db')
        end
  end.

(** *** The statements of the specification, in its own words *)

(** [|S ∩ R| + (1 if D is non-empty and equals Do else 0)]. *)
Definition spec_score (S : gset string) (D : option string)
    (R : gset string) (Do : option string) : Z :=
  Z.of_nat (size (S ∩ R))
  + (if bool_decide (D ≠ None ∧ D ≠ Some "" ∧ D = Do) then 1 else 0).

(** The tag list and the department a stored profile or opening holds. *)
Definition doc_tags (k : string) (d : doc) : list string :=
  match d !! k with
  | Some (VList l) => l
  | _ => []
  end.

Definition doc_department (d : doc) : option string :=
  match d !! "department" with
  | Some (VStr s) => Some s
  | _ => None
  end.

(** Documents shaped by the schemas: a tag field is a list of strings (or
    left out), the department a string or [None] (or left out). *)
Definition tags_typed (k : string) (d : doc) : Prop :=
  match d !! k with
  | None | Some (VList _) => True
  | _ => False
  end.

Definition department_typed (d : doc) : Prop :=
  match d !! "department" with
  | None | Some VNone | Some (VStr _) => True
  | _ => False
  end.

Definition profile_typed (d : doc) : Prop :=
  tags_typed "skills" d ∧ department_typed d.

Definition opening_typed (d : doc) : Prop :=
  tags_typed "skills_required" d ∧ department_typed d.

(** The score the specification gives opening [o] for [student]. *)
Definition spec_score_of (student o : doc) : Z :=
  spec_score (list_to_set (doc_tags "skills" student)) (doc_department student)
    (list_to_set (doc_tags "skills_required" o)) (doc_department o).

(** One entry of the answer of [recommend_openings]. *)
Definition recommendation (so : Z * doc) : doc :=
  dict_or (serialize_doc so.2) {[ "match_score" := VInt so.1 ]}.

(** The score an entry of the answer reports. *)
Definition match_score (e : doc) : Z :=
  match e !! "match_score" with
  | Some (VInt s) => s
  | _ => 0
  end.

(** The applications stored for a (student, opening) pair. *)
Definition applications_of (db : database) (student_id opening_id : string)
  : collection :=
  find {[ "student_id" := VStr student_id; "opening_id" := VStr opening_id ]}
    (db_get db (to_collection_name "Application")).

(** The application that an identity resolves to. *)
Definition app_doc (db : database) (aid : N) : option doc :=
  find_one {[ "_id" := VOid aid ]} (db_get db (to_collection_name "Application")).

(** A field is present when it holds a value other than [None]. *)
Definition present (k : string) (d : doc) : Prop :=
  ∃ v, d !! k = Some v ∧ v ≠ VNone.

(** The certificate reference of an application identity. *)
Definition certificate_of (application_id : string) : value :=
  VStr ("https://certs.example.com/" +:+ application_id +:+ ".pdf").

(** The keys a transition with patch [p] leaves alone: neither assigned by
    the patch nor computed by the server. *)
Definition unwritten (p : ApplicationUpdate.t) (k : string) : Prop :=
  (k = "status" → ApplicationUpdate.status p = None) ∧
  (k = "mentor_id" → ApplicationUpdate.mentor_id p = None) ∧
  (k = "interview_datetime" → ApplicationUpdate.interview_datetime p = None) ∧
  (k = "interview_location" → ApplicationUpdate.interview_location p = None) ∧
  (k = "feedback" → ApplicationUpdate.feedback p = None) ∧
  k ≠ "updated_at" ∧
  (k = "certificate_url" → ApplicationUpdate.status p ≠ Some "completed").

(** The calls that change applications, and the states a sequence of them
    goes through. *)
Inductive request :=
| Create (apply : Application.t) (new_id : N) (now : Z)
| Transition (application_id : string) (payload : ApplicationUpdate.t) (now : Z).

Definition handle (db : database) (r : request) : database :=
  match r with
  | Create apply new_id now => (create_application db apply new_id now).2
  | Transition application_id payload now =>
      (update_application db application_id payload now).2
  end.

Fixpoint history (db : database) (rs : list request) : list database :=
  db :: match rs with
        | [] => []
        | r :: rs' => history (handle db r) rs'
        end.

(** The application [aid] has status "completed" in state [db]. *)
Definition completed_in (aid : N) (db : database) : Prop :=
  ∃ d, app_doc db aid = Some d ∧ d !! "status" = Some (VStr "completed").

(** No stored application carries the identity [new_id]. *)
Definition fresh_id (new_id : N) (db : database) : Prop :=
  Forall (λ d : doc, d !! "_id" ≠ Some (VOid new_id))
    (db_get db (to_collection_name "Application")).

(** The document that a successful [create_application] stores. *)
Definition stored_application (apply : Application.t) (new_id : N) (now : Z)
  : doc :=
  <["_id" := VOid new_id]>
    (<["updated_at" := VDate now]>
       (<["created_at" := VDate now]> (Application.model_dump apply))).

(** A record as [create_document] stores it. *)
Definition stored_document (data : doc) (new_id : N) (now : Z) : doc :=
  <["_id" := VOid new_id]>
    (<["updated_at" := VDate now]> (<["created_at" := VDate now]> data)).

(** The user and the notification that an identity resolves to. *)
Definition user_doc (db : database) (uid : N) : option doc :=
  find_one {[ "_id" := VOid uid ]} (db_get db (to_collection_name "User")).

Definition notification_doc (db : database) (nid : N) : option doc :=
  find_one {[ "_id" := VOid nid ]} (db_get db (to_collection_name "Notification")).

(** At most one application is stored for every (student, opening) pair. *)
Definition unique_pairs (db : database) : Prop :=
  ∀ student_id opening_id,
    (length (applications_of db student_id opening_id) ≤ 1)%nat.

(** A value that is not a [datetime]. *)
Definition not_date (v : value) : Prop :=
  match v with
  | VDate _ => False
  | _ => True
  end.

(** The keys that a transition can write. *)
Definition transition_keys : list string :=
  ["status"; "mentor_id"; "interview_datetime"; "interview_location";
   "feedback"; "updated_at"; "certificate_url"].

(** What an optional query parameter asks of a document: nothing when it
    is left out or empty, the value under its key otherwise. *)
Definition filter_holds (k : string) (x : option string) (d : doc) : Prop :=
  match x with
  | Some s => s = "" ∨ d !! k = Some (VStr s)
  | None => True
  end.

Global Instance filter_holds_dec k x d : Decision (filter_holds k x d).
Proof. destruct x; apply _. Defined.

(** *** Facts about the store *)

Lemma collection_names :
  to_collection_name "User" = "user" ∧
  to_collection_name "Opening" = "opening" ∧
  to_collection_name "Application" = "application".
Proof. done. Qed.

Lemma find_one_Some filt (c : collection) d :
  find_one filt c = Some d → d ∈ c ∧ doc_matches filt d.
Proof.
  unfold find_one. destruct (list_find _ c) as [[i x]|] eqn:E; [|done].
  intros [= <-]. apply list_find_Some in E as (Hi & Hm & _).
  split; [by eapply list_elem_of_lookup_2 | done].
Qed.

Lemma find_one_None filt (c : collection) :
  find_one filt c = None ↔ Forall (λ d, ¬ doc_matches filt d) c.
Proof. unfold find_one. by rewrite fmap_None, list_find_None. Qed.

Lemma find_one_is_Some filt (c : collection) :
  is_Some (find_one filt c) ↔ Exists (doc_matches filt) c.
Proof.
  rewrite <- not_eq_None_Some, find_one_None, Forall_Exists_neg.
  destruct (decide (Exists (doc_matches filt) c)); tauto.
Qed.

(** A document found through a filter that names a field is not the empty
    dictionary, so [if existing:] tests that something was found. *)
Lemma found_find_one filt (c : collection) k v :
  filt !! k = Some v →
  found (find_one filt c) = bool_decide (is_Some (find_one filt c)).
Proof.
  intros Hk. destruct (find_one filt c) as [d|] eqn:E; unfold found.
  - apply find_one_Some in E as [_ Hm]. specialize (Hm k v Hk). simpl in Hm.
    assert (d ≠ ∅) as Hd by (intros ->; by rewrite lookup_empty in Hm).
    by rewrite (bool_decide_eq_false_2 _ Hd), bool_decide_eq_true_2.
  - rewrite bool_decide_eq_false_2; [done|]. by intros [? ?].
Qed.

Lemma find_all (c : collection) : find ∅ c = c.
Proof.
  unfold find. induction c as [|d c IH]; [done|].
  rewrite filter_cons_True; [by rewrite IH|]. apply map_Forall_empty.
Qed.

Lemma doc_matches_id (aid : N) (d : doc) :
  doc_matches {[ "_id" := VOid aid ]} d ↔ d !! "_id" = Some (VOid aid).
Proof. unfold doc_matches. by rewrite map_Forall_singleton. Qed.

(** *** Facts about sorting and slicing *)

Lemma insert_reverse_perm {A} (key : A → Z) x l :
  insert_reverse key x l ≡ₚ x :: l.
Proof.
  induction l as [|y l IH]; simpl; [done|].
  destruct (key x <? key y); [|done].
  rewrite IH. apply Permutation_swap.
Qed.

Lemma sort_reverse_perm {A} (key : A → Z) l : sort_reverse key l ≡ₚ l.
Proof.
  induction l as [|x l IH]; simpl; [done|].
  by rewrite insert_reverse_perm, IH.
Qed.

Lemma insert_reverse_sorted {A} (key : A → Z) x l :
  StronglySorted (λ a b, key b ≤ key a) l →
  StronglySorted (λ a b, key b ≤ key a) (insert_reverse key x l).
Proof.
  induction 1 as [|y l Hl IH Hy]; simpl; [by repeat constructor|].
  destruct (Z.ltb_spec (key x) (key y)).
  - constructor; [done|]. rewrite insert_reverse_perm. constructor; [lia|done].
  - constructor; [by constructor|]. constructor; [lia|].
    eapply Forall_impl; [exact Hy|]. simpl. intros; lia.
Qed.

Lemma sort_reverse_sorted {A} (key : A → Z) l :
  StronglySorted (λ a b, key b ≤ key a) (sort_reverse key l).
Proof.
  induction l as [|x l IH]; simpl; [constructor|].
  by apply insert_reverse_sorted.
Qed.

Lemma insert_reverse_stable {A} (key : A → Z) (s : Z) x l :
  filter (λ y, key y = s) (insert_reverse key x l)
  = filter (λ y, key y = s) (x :: l).
Proof.
  induction l as [|y l IH]; simpl; [done|].
  destruct (Z.ltb_spec (key x) (key y)); [|done].
  rewrite (filter_cons _ y), IH, !(filter_cons _ x), !(filter_cons _ y).
  repeat case_decide; try done; lia.
Qed.

Lemma sort_reverse_stable {A} (key : A → Z) (s : Z) l :
  filter (λ y, key y = s) (sort_reverse key l) = filter (λ y, key y = s) l.
Proof.
  induction l as [|x l IH]; simpl; [done|].
  by rewrite insert_reverse_stable, !filter_cons, IH.
Qed.

Lemma slice_to_nonneg {A} (n : Z) (l : list A) :
  0 ≤ n → slice_to n l = take (Z.to_nat n) l.
Proof. unfold slice_to. by destruct (Z.ltb_spec n 0); [lia|]. Qed.

Lemma elem_of_slice_to {A} (n : Z) (l : list A) x : x ∈ slice_to n l → x ∈ l.
Proof. unfold slice_to. destruct (n <? 0); apply subseteq_take. Qed.

(** *** The matcher *)

Lemma department_bonus (student o : doc) :
  department_typed student →
  truthy (py_and (get student "department")
            (VBool (py_eq (get student "department") (get o "department"))))
  = bool_decide (doc_department student ≠ None ∧
                 doc_department student ≠ Some "" ∧
                 doc_department student = doc_department o).
Proof.
  intros Hty.
  assert (get student "department" = opt_str (doc_department student)) as ->.
  { unfold department_typed in Hty. unfold get, doc_department.
    by destruct (student !! "department") as [[]|]. }
  assert (∀ s, py_eq (VStr s) (get o "department")
               = bool_decide (Some s = doc_department o)) as Heq.
  { intros s. unfold get, doc_department, py_eq.
    destruct (o !! "department") as [[]|]; cbn [from_option id];
      apply bool_decide_ext; split; congruence. }
  destruct (doc_department student) as [s|];
    unfold opt_str, py_and; cbn [from_option truthy].
  - rewrite Heq. destruct (String.eqb_spec s "") as [->|Hs]; cbn [negb truthy].
    + rewrite bool_decide_eq_false_2; [done|]. by intros (_ & ? & _).
    + apply bool_decide_ext. split; [|by intros (_ & _ & ?)].
      intros Ho. split_and!; [done | congruence | done].
  - rewrite bool_decide_eq_false_2; [done|]. by intros [? _].
Qed.

Lemma score_opening_spec (student o : doc) :
  department_typed student → opening_typed o →
  score_opening student (list_to_set (doc_tags "skills" student)) o
  = Ok (spec_score_of student o).
Proof.
  intros Hs [Ht _]. unfold score_opening, spec_score_of, spec_score.
  rewrite department_bonus by done.
  unfold tags_typed in Ht. unfold get_default, doc_tags.
  destruct (o !! "skills_required") as [[| | | |l| |]|]; simpl; done.
Qed.

Lemma score_loop_spec (student : doc) (openings : collection) scored :
  department_typed student → Forall opening_typed openings →
  score_loop student (list_to_set (doc_tags "skills" student)) openings scored
  = Ok (scored ++ ((λ o, (spec_score_of student o, o)) <$> openings)).
Proof.
  intros Hs Ho. revert scored.
  induction Ho as [|o openings Ho _ IH]; intros scored; simpl.
  - by rewrite app_nil_r.
  - rewrite score_opening_spec by done. unfold mbind, result_bind.
    by rewrite IH, <- app_assoc.
Qed.

Lemma recommendation_score (so : Z * doc) :
  recommendation so !! "match_score" = Some (VInt so.1).
Proof.
  unfold recommendation, dict_or.
  apply lookup_union_Some_l, lookup_singleton_eq.
Qed.

(** The answer of [recommend_openings] for a stored student whose documents
    have the shape of the schemas. *)
Lemma recommend_openings_eq db student_id limit oid (student : doc) :
  ObjectId student_id = Some oid →
  find_one {[ "_id" := VOid oid ]} (db_get db "user") = Some student →
  profile_typed student →
  Forall opening_typed (db_get db "opening") →
  recommend_openings db student_id limit
  = Ok (recommendation <$>
          slice_to limit
            (sort_reverse fst
               ((λ o, (spec_score_of student o, o)) <$> db_get db "opening"))).
Proof.
  intros Hid Hst [Hsk Hdep] Hop. unfold recommend_openings.
  destruct collection_names as (-> & -> & _). rewrite Hid.
  rewrite (found_find_one _ _ "_id" (VOid oid)) by apply lookup_singleton_eq.
  rewrite Hst, bool_decide_eq_true_2 by eauto. simpl.
  assert (py_set (get_default student "skills" (VList []))
          = Some (list_to_set (doc_tags "skills" student))) as ->.
  { unfold tags_typed in Hsk. unfold get_default, doc_tags.
    destruct (student !! "skills") as [[| | | |l| |]|]; simpl; done. }
  rewrite find_all, score_loop_spec by done. unfold mbind, result_bind.
  simpl. f_equal. apply list_fmap_ext. by intros _ [s o] _.
Qed.

(** Profiles and openings stored from the schemas have the shape that the
    matcher's statements ask for, and hold the skills and the department of
    the record. *)
Lemma stored_user_typed (u : User.t) new_id now :
  profile_typed (stored_document (User.model_dump u) new_id now) ∧
  doc_tags "skills" (stored_document (User.model_dump u) new_id now)
  = User.skills u ∧
  doc_department (stored_document (User.model_dump u) new_id now)
  = User.department u.
Proof.
  unfold profile_typed, tags_typed, department_typed, doc_tags, doc_department.
  replace (stored_document (User.model_dump u) new_id now !! "skills")
    with (Some (VList (User.skills u))) by done.
  replace (stored_document (User.model_dump u) new_id now !! "department")
    with (Some (opt_str (User.department u))) by done.
  by destruct (User.department u).
Qed.

Lemma stored_opening_typed (o : Opening.t) new_id now :
  opening_typed (stored_document (Opening.model_dump o) new_id now) ∧
  doc_tags "skills_required" (stored_document (Opening.model_dump o) new_id now)
  = Opening.skills_required o ∧
  doc_department (stored_document (Opening.model_dump o) new_id now)
  = Opening.department o.
Proof.
  unfold opening_typed, tags_typed, department_typed, doc_tags, doc_department.
  replace (stored_document (Opening.model_dump o) new_id now !! "skills_required")
    with (Some (VList (Opening.skills_required o))) by done.
  replace (stored_document (Opening.model_dump o) new_id now !! "department")
    with (Some (opt_str (Opening.department o))) by done.
  by destruct (Opening.department o).
Qed.

(** A negative bound keeps all but the last [-n] elements. *)
Lemma slice_to_negative {A} (n : Z) (l : list A) :
  n < 0 → length (slice_to n l) = Z.to_nat (Z.of_nat (length l) + n).
Proof.
  intros Hn. unfold slice_to. destruct (Z.ltb_spec n 0); [|lia].
  rewrite length_take. lia.
Qed.

(** C1: for a student with skill set S and department D and an opening
    with required skills R and department Do, [recommend_openings] assigns
    the opening the integer score |S ∩ R| + (1 if D is non-empty and equals
    Do, else 0), nothing else added or scaled.  The answer is the list of
    all stored openings, each paired with exactly that score, put in order
    and cut at the limit; with a limit that reaches the number of openings
    every stored opening has its entry; and every entry of the answer is
    some stored opening together with its score. *)
Theorem recommend_scores db student_id limit oid (student : doc) :
  ObjectId student_id = Some oid →
  find_one {[ "_id" := VOid oid ]} (db_get db "user") = Some student →
  profile_typed student →
  Forall opening_typed (db_get db "opening") →
  ∃ out,
    recommend_openings db student_id limit = Ok out ∧
    out = (λ so : Z * doc,
             dict_or (serialize_doc so.2) {[ "match_score" := VInt so.1 ]})
          <$> slice_to limit
                (sort_reverse fst
                   ((λ o, (spec_score
                             (list_to_set (doc_tags "skills" student))
                             (doc_department student)
                             (list_to_set (doc_tags "skills_required" o))
                             (doc_department o), o))
                      <$> db_get db "opening")) ∧
    (Z.of_nat (length (db_get db "opening")) ≤ limit →
     out ≡ₚ (λ o, dict_or (serialize_doc o)
                    {[ "match_score" :=
                         VInt (spec_score
                                 (list_to_set (doc_tags "skills" student))
                                 (doc_department student)
                                 (list_to_set (doc_tags "skills_required" o))
                                 (doc_department o)) ]})
            <$> db_get db "opening") ∧
    Forall (λ e, ∃ o,
              o ∈ db_get db "opening" ∧
              e = dict_or (serialize_doc o)
                    {[ "match_score" := VInt (spec_score_of student o) ]} ∧
              e !! "match_score"
              = Some (VInt (spec_score
                              (list_to_set (doc_tags "skills" student))
                              (doc_department student)
                              (list_to_set (doc_tags "skills_required" o))
                              (doc_department o))))
      out.
Proof.
  intros Hid Hst Hty Hop. eexists. split.
  { by eapply recommend_openings_eq. }
  split; [done|]. split.
  - intros Hall. rewrite slice_to_nonneg by lia.
    rewrite firstn_all2.
    2:{ rewrite sort_reverse_perm, length_fmap. lia. }
    rewrite sort_reverse_perm. by rewrite <- list_fmap_compose.
  - apply Forall_forall. intros e He.
    apply list_elem_of_fmap in He as ([s o] & -> & Hso).
    apply elem_of_slice_to in Hso. rewrite sort_reverse_perm in Hso.
    apply list_elem_of_fmap in Hso as (o' & [= -> ->] & Ho').
    exists o'. split; [done|]. split; [done|].
    apply (recommendation_score (_, _)).
Qed.

Lemma match_score_recommendation (so : Z * doc) :
  match_score (recommendation so) = so.1.
Proof. unfold match_score. by rewrite recommendation_score. Qed.

(** C2 (amended): for a limit that is not negative, [recommend_openings]
    returns exactly min(limit, n) entries of the n openings: the first ones
    of the list of all scored openings put in non-increasing order of
    score, entries of equal score staying in input order.  So limit 0 and
    an empty set of openings give an empty answer, and no entry is dropped
    for a score of 0: a limit of n or more returns all n. *)
Theorem recommend_top_limit db student_id limit oid (student : doc) :
  ObjectId student_id = Some oid →
  find_one {[ "_id" := VOid oid ]} (db_get db "user") = Some student →
  profile_typed student →
  Forall opening_typed (db_get db "opening") →
  0 ≤ limit →
  ∃ ranked out,
    recommend_openings db student_id limit = Ok out ∧
    ranked ≡ₚ (λ o, (spec_score_of student o, o)) <$> db_get db "opening" ∧
    StronglySorted (λ a b, b.1 ≤ a.1) ranked ∧
    (∀ s, filter (λ so, so.1 = s) ranked
          = filter (λ so, so.1 = s)
              ((λ o, (spec_score_of student o, o)) <$> db_get db "opening")) ∧
    out = recommendation <$> take (Z.to_nat limit) ranked ∧
    Z.of_nat (length out)
    = Z.min limit (Z.of_nat (length (db_get db "opening"))) ∧
    StronglySorted (λ a b, match_score b ≤ match_score a) out ∧
    (limit = 0 → out = []) ∧
    (db_get db "opening" = [] → out = []) ∧
    (Z.of_nat (length (db_get db "opening")) ≤ limit →
     out = recommendation <$> ranked).
Proof.
  intros Hid Hst Hty Hop Hlim.
  set (scored := (λ o, (spec_score_of student o, o)) <$> db_get db "opening").
  assert (length (sort_reverse fst scored) = length (db_get db "opening"))
    as Hlen.
  { by rewrite sort_reverse_perm; unfold scored; rewrite length_fmap. }
  exists (sort_reverse fst scored). eexists. split.
  { rewrite (recommend_openings_eq _ _ _ _ _ Hid Hst Hty Hop).
    rewrite slice_to_nonneg by done. fold scored. reflexivity. }
  split; [apply sort_reverse_perm|].
  split; [apply sort_reverse_sorted|].
  split; [intros s; apply (sort_reverse_stable fst)|].
  split; [done|].
  split; [rewrite length_fmap, length_take, Hlen; lia|].
  split.
  { apply (StronglySorted_fmap _ (λ a b : Z * doc, b.1 ≤ a.1)).
    - intros a b. by rewrite !match_score_recommendation.
    - eapply (StronglySorted_app_1_l _ _ (drop (Z.to_nat limit) _)).
      rewrite take_drop. apply sort_reverse_sorted. }
  split; [by intros ->|].
  split.
  { intros Hnil. rewrite Hnil in Hlen.
    apply nil_length_inv in Hlen. by rewrite Hlen, take_nil. }
  intros Hall. rewrite firstn_all2; [done|]. rewrite Hlen. lia.
Qed.

(** *** Creating applications *)

Lemma find_one_head filt (c : collection) :
  find_one filt c = head (find filt c).
Proof.
  unfold find_one, find. induction c as [|d c IH]; [done|].
  rewrite filter_cons. cbn [list_find]. case_decide; [done|].
  rewrite <- IH. by destruct (list_find _ c) as [[]|].
Qed.

Lemma db_get_insert (db : database) name c : db_get (<[name := c]> db) name = c.
Proof. unfold db_get. by rewrite lookup_insert_eq. Qed.

Lemma db_get_insert_ne (db : database) name name' c :
  name ≠ name' → db_get (<[name := c]> db) name' = db_get db name'.
Proof. intros. unfold db_get. by rewrite lookup_insert_ne. Qed.

Lemma stored_application_matches apply new_id now :
  doc_matches
    {[ "student_id" := VStr (Application.student_id apply);
       "opening_id" := VStr (Application.opening_id apply) ]}
    (stored_application apply new_id now).
Proof.
  unfold doc_matches. apply map_Forall_insert_2; [done|].
  by apply map_Forall_singleton.
Qed.

Lemma create_application_new db apply new_id now :
  applications_of db (Application.student_id apply) (Application.opening_id apply)
  = [] →
  create_application db apply new_id now
  = (Ok {[ "id" := VStr (str (VOid new_id)) ]},
     <["application" :=
         db_get db "application" ++ [stored_application apply new_id now]]> db).
Proof.
  unfold applications_of, create_application. intros Hnone.
  rewrite (found_find_one _ _ "student_id" (VStr (Application.student_id apply)))
    by done.
  rewrite find_one_head, Hnone, bool_decide_eq_false_2 by by intros [? ?].
  destruct collection_names as (_ & _ & ->).
  unfold create_document, db_insert_one, insert_one.
  by replace (_ !! "_id") with (@None value) by done.
Qed.

Lemma create_application_duplicate db apply new_id now :
  applications_of db (Application.student_id apply) (Application.opening_id apply)
  ≠ [] →
  create_application db apply new_id now
  = (Raise (HTTPException 400 "Application already exists"), db).
Proof.
  unfold applications_of, create_application. intros Hsome.
  rewrite (found_find_one _ _ "student_id" (VStr (Application.student_id apply)))
    by done.
  rewrite find_one_head, bool_decide_eq_true_2; [done|].
  by destruct (find _ _).
Qed.

Lemma applications_of_new db apply new_id now :
  applications_of
    (<["application" :=
         db_get db "application" ++ [stored_application apply new_id now]]> db)
    (Application.student_id apply) (Application.opening_id apply)
  = applications_of db (Application.student_id apply) (Application.opening_id apply)
    ++ [stored_application apply new_id now].
Proof.
  unfold applications_of, find. destruct collection_names as (_ & _ & ->).
  rewrite db_get_insert, filter_app. f_equal.
  rewrite filter_cons_True by apply stored_application_matches. done.
Qed.

(** C3: calling create twice with the same student and opening: the second
    call fails with the duplicate error ("Application already exists", the
    Conflict of the specification) and leaves the store as the first call
    left it; when no application of the pair was stored before, the first
    call stores one, and that one is the only application of the pair after
    both calls; otherwise neither call writes. *)
Theorem create_twice db apply id1 now1 id2 now2 :
  let first := create_application db apply id1 now1 in
  let second := create_application first.2 apply id2 now2 in
  second.1 = Raise (HTTPException 400 "Application already exists") ∧
  second.2 = first.2 ∧
  ((applications_of db (Application.student_id apply)
      (Application.opening_id apply) = [] ∧
    first.1 = Ok {[ "id" := VStr (str (VOid id1)) ]} ∧
    db_get second.2 "application"
    = db_get db "application" ++ [stored_application apply id1 now1] ∧
    applications_of second.2 (Application.student_id apply)
      (Application.opening_id apply) = [stored_application apply id1 now1])
   ∨
   (applications_of db (Application.student_id apply)
      (Application.opening_id apply) ≠ [] ∧
    first.1 = Raise (HTTPException 400 "Application already exists") ∧
    second.2 = db)).
Proof.
  intros first second. subst second first.
  destruct (decide (applications_of db (Application.student_id apply)
                      (Application.opening_id apply) = [])) as [Hnone|Hsome].
  - rewrite (create_application_new _ _ _ _ Hnone). cbn [fst snd].
    rewrite create_application_duplicate.
    2:{ rewrite applications_of_new. by destruct (applications_of _ _ _). }
    cbn [fst snd]. split; [done|]. split; [done|]. left.
    split; [done|]. split; [done|].
    split; [apply db_get_insert|].
    by rewrite applications_of_new, Hnone.
  - repeat (rewrite (create_application_duplicate _ _ _ _ Hsome);
            cbn [fst snd]).
    split; [done|]. split; [done|]. by right.
Qed.

(** C7 (amended): a successful create stores the request body as it was
    given: status and the optional fields (mentor, interview date and
    location, feedback, certificate) hold the values of the request.  A
    request that gives only the student and the opening, so that every
    other field takes its default, is stored with status "applied" and all
    optional fields empty. *)
Theorem create_stores_request db apply new_id now :
  applications_of db (Application.student_id apply) (Application.opening_id apply)
  = [] →
  ∃ d,
    create_application db apply new_id now
    = (Ok {[ "id" := VStr (str (VOid new_id)) ]},
       <["application" := db_get db "application" ++ [d]]> db) ∧
    d !! "status" = Some (VStr (Application.status_str (Application.status apply))) ∧
    d !! "mentor_id" = Some (opt_str (Application.mentor_id apply)) ∧
    d !! "interview_datetime" = Some (opt_date (Application.interview_datetime apply)) ∧
    d !! "interview_location" = Some (opt_str (Application.interview_location apply)) ∧
    d !! "feedback" = Some (opt_str (Application.feedback apply)) ∧
    d !! "certificate_url" = Some (opt_str (Application.certificate_url apply)) ∧
    (∀ student_id opening_id,
       apply = Application.defaults student_id opening_id →
       d !! "status" = Some (VStr "applied") ∧
       d !! "mentor_id" = Some VNone ∧
       d !! "interview_datetime" = Some VNone ∧
       d !! "interview_location" = Some VNone ∧
       d !! "feedback" = Some VNone ∧
       d !! "certificate_url" = Some VNone).
Proof.
  intros Hnone. exists (stored_application apply new_id now).
  split; [by apply create_application_new|].
  split_and!; try done.
  by intros student_id opening_id ->.
Qed.

(** *** Transitions *)

Lemma list_find_insert_same {A} (P : A → Prop) `{∀ x, Decision (P x)}
    (l : list A) i x y :
  list_find P l = Some (i, x) → P y → list_find P (<[i := y]> l) = Some (i, y).
Proof.
  intros (Hi & _ & Hleast)%list_find_Some Hy. apply list_find_Some.
  split_and!; [|done|].
  - apply list_lookup_insert_eq. by eapply lookup_lt_Some.
  - intros j z Hj Hlt. apply (Hleast j z); [|done].
    rewrite list_lookup_insert_ne in Hj by lia. done.
Qed.

Lemma list_find_insert_other {A} (P : A → Prop) `{∀ x, Decision (P x)}
    (l : list A) i x y :
  l !! i = Some x → ¬ P x → ¬ P y → list_find P (<[i := y]> l) = list_find P l.
Proof.
  revert i. induction l as [|z l IH]; intros [|i] Hi Hx Hy; try done.
  - simpl in Hi. injection Hi as ->. cbn [list_find].
    change (<[0%nat := y]> (x :: l)) with (y :: l). cbn [list_find].
    by rewrite !decide_False.
  - change (<[S i := y]> (z :: l)) with (z :: <[i := y]> l). cbn [list_find].
    by rewrite (IH i).
Qed.

(** The fields of the patch that were assigned a value. *)
Lemma patch_lookup (p : ApplicationUpdate.t) k :
  filter (λ kv : string * value, kv.2 ≠ VNone) (ApplicationUpdate.model_dump p) !! k
  = if decide (k = "status") then VStr <$> ApplicationUpdate.status p
    else if decide (k = "mentor_id") then VStr <$> ApplicationUpdate.mentor_id p
    else if decide (k = "interview_datetime")
         then VDate <$> ApplicationUpdate.interview_datetime p
    else if decide (k = "interview_location")
         then VStr <$> ApplicationUpdate.interview_location p
    else if decide (k = "feedback") then VStr <$> ApplicationUpdate.feedback p
    else None.
Proof.
  apply option_eq. intros v. rewrite map_lookup_filter_Some.
  unfold ApplicationUpdate.model_dump.
  repeat case_decide; subst; simplify_map_eq;
    try match goal with
        | |- context [opt_str ?o] => destruct o
        | |- context [opt_date ?o] => destruct o
        end;
    cbn; (split; [intros [[= <-] ?] | intros [= <-]]; done).
Qed.

Lemma completed_test (p : ApplicationUpdate.t) :
  py_eq (get (filter (λ kv : string * value, kv.2 ≠ VNone)
                (ApplicationUpdate.model_dump p)) "status")
    (VStr "completed")
  = bool_decide (ApplicationUpdate.status p = Some "completed").
Proof.
  unfold get. rewrite patch_lookup. rewrite decide_True by done.
  destruct (ApplicationUpdate.status p) as [s|]; cbn [fmap option_fmap option_map from_option id py_eq];
    apply bool_decide_ext; split; congruence.
Qed.

(** What [update_application] hands to [$set], key by key. *)
Lemma update_dict_lookup application_id (p : ApplicationUpdate.t) now k :
  update_dict_of application_id p now !! k
  = if decide (k = "updated_at") then Some (VDate now)
    else if decide (k = "certificate_url")
         then (if decide (ApplicationUpdate.status p = Some "completed")
               then Some (certificate_of application_id) else None)
    else filter (λ kv : string * value, kv.2 ≠ VNone)
           (ApplicationUpdate.model_dump p) !! k.
Proof.
  unfold update_dict_of. rewrite completed_test.
  case_decide as Hk; [subst k; by rewrite lookup_insert_eq|].
  rewrite lookup_insert_ne by done.
  case_decide as Hc; [subst k|].
  - case_bool_decide.
    + rewrite decide_True by done. by rewrite lookup_insert_eq.
    + rewrite decide_False by done. rewrite patch_lookup. by repeat case_decide.
  - case_bool_decide; [by rewrite lookup_insert_ne | done].
Qed.

Lemma update_dict_keeps_id application_id (p : ApplicationUpdate.t) now (d : doc) :
  (update_dict_of application_id p now ∪ d) !! "_id" = d !! "_id".
Proof.
  apply lookup_union_r. rewrite update_dict_lookup, patch_lookup.
  by repeat case_decide.
Qed.

Lemma update_application_invalid db application_id payload now :
  ObjectId application_id = None →
  update_application db application_id payload now
  = (Raise (HTTPException 400 "Invalid application id"), db).
Proof. unfold update_application. by intros ->. Qed.

Lemma update_application_missing db application_id payload now aid :
  ObjectId application_id = Some aid →
  app_doc db aid = None →
  update_application db application_id payload now
  = (Raise (HTTPException 404 "Application not found"), db).
Proof.
  unfold update_application, app_doc, find_one, db_update_one.
  intros -> Hnone. destruct (list_find _ _); [done|]. done.
Qed.

Lemma update_application_found db application_id payload now aid (d : doc) :
  ObjectId application_id = Some aid →
  app_doc db aid = Some d →
  ∃ i,
    list_find (doc_matches {[ "_id" := VOid aid ]}) (db_get db "application")
    = Some (i, d) ∧
    update_application db application_id payload now
    = (Ok (serialize_doc (update_dict_of application_id payload now ∪ d)),
       <["application" :=
           <[i := update_dict_of application_id payload now ∪ d]>
             (db_get db "application")]> db).
Proof.
  unfold update_application, app_doc, find_one, db_update_one, update_one.
  destruct collection_names as (_ & _ & ->). intros ->.
  destruct (list_find _ _) as [[i d']|] eqn:Hfind; [|done].
  intros [= ->]. exists i. split; [done|].
  cbn [fst snd Z.eqb]. rewrite db_get_insert.
  erewrite list_find_insert_same; [done|exact Hfind|].
  apply doc_matches_id. rewrite update_dict_keeps_id.
  apply doc_matches_id. by apply list_find_Some in Hfind as (_ & ? & _).
Qed.

(** The stored applications after the first document of identity [aid]
    was replaced by a document of the same identity. *)
Lemma app_doc_updated db aid i (d d' : doc) aid' :
  list_find (doc_matches {[ "_id" := VOid aid ]}) (db_get db "application")
  = Some (i, d) →
  d' !! "_id" = d !! "_id" →
  app_doc (<["application" := <[i := d']> (db_get db "application")]> db) aid'
  = if decide (aid' = aid) then Some d' else app_doc db aid'.
Proof.
  intros Hfind Hid. unfold app_doc, find_one.
  destruct collection_names as (_ & _ & ->). rewrite db_get_insert.
  pose proof Hfind as (Hi & Hm%doc_matches_id & _)%list_find_Some.
  case_decide as Haid; [subst aid'|].
  - erewrite list_find_insert_same; [done|exact Hfind|].
    apply doc_matches_id. congruence.
  - erewrite list_find_insert_other; [done|exact Hi| |];
      rewrite doc_matches_id; congruence.
Qed.

Lemma serialize_doc_lookup (d : doc) k :
  k ≠ "_id" → k ≠ "id" →
  serialize_doc d !! k
  = (λ v, match v with VDate t => VStr (isoformat t) | _ => v end) <$> d !! k.
Proof.
  intros H1 H2. unfold serialize_doc. rewrite lookup_fmap. f_equal.
  destruct (d !! "_id") as [[]|];
    rewrite ?lookup_insert_ne by done; by rewrite lookup_delete_ne.
Qed.

(** C4: the transition tells its two failures apart.  It fails with
    BadRequest (400, "Invalid application id") exactly when the identity
    does not parse, and with NotFound (404, "Application not found")
    exactly when the identity parses and no stored application carries it;
    a failed transition writes nothing. *)
Theorem transition_failures db application_id payload now :
  let r := update_application db application_id payload now in
  (r.1 = Raise (HTTPException 400 "Invalid application id")
   ↔ ObjectId application_id = None) ∧
  (r.1 = Raise (HTTPException 404 "Application not found")
   ↔ ∃ aid, ObjectId application_id = Some aid ∧ app_doc db aid = None) ∧
  ((∃ e, r.1 = Raise e) ↔
   ObjectId application_id = None ∨
   ∃ aid, ObjectId application_id = Some aid ∧ app_doc db aid = None) ∧
  ((∃ e, r.1 = Raise e) → r.2 = db).
Proof.
  intros r. subst r.
  destruct (ObjectId application_id) as [aid|] eqn:Hid.
  - destruct (app_doc db aid) as [d|] eqn:Hdoc.
    + destruct (update_application_found _ _ payload now _ _ Hid Hdoc)
        as (i & _ & ->). cbn [fst snd].
      split_and!.
      * split; [done|]. intros; discriminate.
      * split; [done|]. intros (a & [= <-] & Hn). congruence.
      * split; [by intros [? ?]|].
        intros [?|(a & [= <-] & Hn)]; [discriminate|congruence].
      * by intros [? ?].
    + rewrite (update_application_missing _ _ _ _ _ Hid Hdoc). cbn [fst snd].
      split_and!; [done|split; eauto|split; eauto|done].
  - rewrite (update_application_invalid _ _ _ _ Hid). cbn [fst snd].
    split_and!; [done| |split; eauto|done].
    split; [done|]. by intros (? & ? & _).
Qed.

(** C5: the certificate reference written by a transition whose patch has
    status "completed" is a function of the application identity of the
    request alone: two such transitions of the same application, on
    whatever store, at whatever times and with whatever other fields in
    the patch, both answer and store the reference [certificate_of] of
    that identity. *)
Theorem certificate_idempotent db application_id p1 p2 now1 now2 aid (d : doc) :
  ObjectId application_id = Some aid →
  app_doc db aid = Some d →
  ApplicationUpdate.status p1 = Some "completed" →
  ApplicationUpdate.status p2 = Some "completed" →
  let first := update_application db application_id p1 now1 in
  let second := update_application first.2 application_id p2 now2 in
  ∃ d1 d2 s1 s2 : doc,
    first.1 = Ok d1 ∧ second.1 = Ok d2 ∧
    app_doc first.2 aid = Some s1 ∧ app_doc second.2 aid = Some s2 ∧
    d1 !! "certificate_url" = Some (certificate_of application_id) ∧
    d2 !! "certificate_url" = Some (certificate_of application_id) ∧
    s1 !! "certificate_url" = Some (certificate_of application_id) ∧
    s2 !! "certificate_url" = Some (certificate_of application_id).
Proof.
  intros Hid Hdoc Hp1 Hp2 first second. subst second first.
  assert (∀ p now (d0 : doc),
            ApplicationUpdate.status p = Some "completed" →
            (update_dict_of application_id p now ∪ d0) !! "certificate_url"
            = Some (certificate_of application_id)) as Hcert.
  { intros p now d0 Hp. apply lookup_union_Some_l.
    rewrite update_dict_lookup. by rewrite Hp. }
  destruct (update_application_found _ _ p1 now1 _ _ Hid Hdoc)
    as (i & Hfind & ->). cbn [fst snd].
  pose proof (app_doc_updated db aid i d _ aid Hfind
                (update_dict_keeps_id application_id p1 now1 d)) as Hdoc1.
  rewrite decide_True in Hdoc1 by done.
  destruct (update_application_found _ _ p2 now2 _ _ Hid Hdoc1)
    as (j & Hfind2 & ->). cbn [fst snd].
  pose proof (app_doc_updated _ aid j _ _ aid Hfind2
                (update_dict_keeps_id application_id p2 now2 _)) as Hdoc2.
  rewrite decide_True in Hdoc2 by done.
  do 4 eexists. split; [done|]. split; [done|].
  split; [exact Hdoc1|]. split; [exact Hdoc2|].
  rewrite !serialize_doc_lookup by done. rewrite !Hcert by done. done.
Qed.

(** C8: the transition does not validate the status: whatever string the
    patch gives as status, a transition of a stored application succeeds,
    and the application is stored and answered with that very string as
    its status. *)
Theorem transition_status_verbatim db application_id payload now aid (d : doc) s :
  ObjectId application_id = Some aid →
  app_doc db aid = Some d →
  ApplicationUpdate.status payload = Some s →
  ∃ answer stored : doc,
    (update_application db application_id payload now).1 = Ok answer ∧
    app_doc (update_application db application_id payload now).2 aid
    = Some stored ∧
    stored !! "status" = Some (VStr s) ∧
    answer !! "status" = Some (VStr s).
Proof.
  intros Hid Hdoc Hs.
  destruct (update_application_found _ _ payload now _ _ Hid Hdoc)
    as (i & Hfind & ->). cbn [fst snd].
  pose proof (app_doc_updated db aid i d _ aid Hfind
                (update_dict_keeps_id application_id payload now d)) as Hdoc1.
  rewrite decide_True in Hdoc1 by done.
  assert ((update_dict_of application_id payload now ∪ d) !! "status"
          = Some (VStr s)) as Hst.
  { apply lookup_union_Some_l.
    rewrite update_dict_lookup, patch_lookup. by rewrite Hs. }
  do 2 eexists. split; [done|]. split; [exact Hdoc1|]. split; [done|].
  by rewrite serialize_doc_lookup, Hst.
Qed.

(** C9: a successful transition replaces one stored application by a
    document that differs from it only where the transition writes: each
    field that the patch assigns holds the assigned value, [updated_at]
    holds the time of the call, [certificate_url] holds the certificate
    reference when the patched status is "completed", and every other key
    ([unwritten]) holds what it held before.  No other document of any
    collection changes. *)
Theorem transition_frame db application_id p now aid (d : doc) :
  ObjectId application_id = Some aid →
  app_doc db aid = Some d →
  ∃ i (d' : doc),
    db_get db "application" !! i = Some d ∧
    (update_application db application_id p now).2
    = <["application" := <[i := d']> (db_get db "application")]> db ∧
    app_doc (update_application db application_id p now).2 aid = Some d' ∧
    (∀ k, unwritten p k → d' !! k = d !! k) ∧
    (∀ s, ApplicationUpdate.status p = Some s → d' !! "status" = Some (VStr s)) ∧
    (∀ m, ApplicationUpdate.mentor_id p = Some m →
          d' !! "mentor_id" = Some (VStr m)) ∧
    (∀ t, ApplicationUpdate.interview_datetime p = Some t →
          d' !! "interview_datetime" = Some (VDate t)) ∧
    (∀ l, ApplicationUpdate.interview_location p = Some l →
          d' !! "interview_location" = Some (VStr l)) ∧
    (∀ f, ApplicationUpdate.feedback p = Some f →
          d' !! "feedback" = Some (VStr f)) ∧
    d' !! "updated_at" = Some (VDate now) ∧
    (ApplicationUpdate.status p = Some "completed" →
     d' !! "certificate_url" = Some (certificate_of application_id)) ∧
    (∀ name j, name ≠ "application" ∨ j ≠ i →
       db_get (update_application db application_id p now).2 name !! j
       = db_get db name !! j).
Proof.
  intros Hid Hdoc.
  destruct (update_application_found _ _ p now _ _ Hid Hdoc)
    as (i & Hfind & ->). cbn [fst snd].
  pose proof (app_doc_updated db aid i d _ aid Hfind
                (update_dict_keeps_id application_id p now d)) as Hdoc1.
  rewrite decide_True in Hdoc1 by done.
  exists i, (update_dict_of application_id p now ∪ d).
  split; [by apply list_find_Some in Hfind as (? & _)|].
  split; [done|]. split; [exact Hdoc1|].
  split.
  { intros k (Hst & Hme & Hdt & Hlo & Hfe & Hup & Hce).
    apply lookup_union_r. rewrite update_dict_lookup, patch_lookup.
    rewrite (decide_False (P := k = "updated_at")) by done.
    repeat case_decide; subst;
      rewrite ?Hst, ?Hme, ?Hdt, ?Hlo, ?Hfe by done; try done.
    by destruct Hce. }
  split_and!.
  - intros s Hs. apply lookup_union_Some_l.
    rewrite update_dict_lookup, patch_lookup. by rewrite Hs.
  - intros m Hm. apply lookup_union_Some_l.
    rewrite update_dict_lookup, patch_lookup. by rewrite Hm.
  - intros t Ht. apply lookup_union_Some_l.
    rewrite update_dict_lookup, patch_lookup. by rewrite Ht.
  - intros l Hl. apply lookup_union_Some_l.
    rewrite update_dict_lookup, patch_lookup. by rewrite Hl.
  - intros f Hf. apply lookup_union_Some_l.
    rewrite update_dict_lookup, patch_lookup. by rewrite Hf.
  - apply lookup_union_Some_l. by rewrite update_dict_lookup.
  - intros Hs. apply lookup_union_Some_l.
    rewrite update_dict_lookup. by rewrite Hs.
  - intros name j Hother.
    destruct (decide (name = "application")) as [->|Hname].
    + rewrite db_get_insert. destruct Hother as [?|Hj]; [done|].
      by rewrite list_lookup_insert_ne.
    + by rewrite db_get_insert_ne.
Qed.

(** *** Listing applications *)

Lemma add_filter_empty k (filt : doc) :
  add_filter k (Some "") filt = add_filter k None filt.
Proof. done. Qed.

(** C10: in [list_applications] a filter given as the empty string is the
    same as a filter that is not given: it puts no condition on its field,
    so listing with empty strings for all three filters answers every
    stored application, not only those whose fields are empty strings. *)
Theorem list_applications_empty_filter db student_id opening_id mentor_id :
  list_applications db (Some "") opening_id mentor_id
  = list_applications db None opening_id mentor_id ∧
  list_applications db student_id (Some "") mentor_id
  = list_applications db student_id None mentor_id ∧
  list_applications db student_id opening_id (Some "")
  = list_applications db student_id opening_id None ∧
  list_applications db (Some "") (Some "") (Some "")
  = serialize_doc <$> db_get db "application" ∧
  list_applications db None None None
  = serialize_doc <$> db_get db "application".
Proof.
  unfold list_applications. rewrite !add_filter_empty.
  split_and!; try done;
    unfold add_filter, get_documents; cbn [opt_str from_option truthy];
    by rewrite find_all.
Qed.

(** *** Certificates along a history *)

Lemma app_doc_created db apply new_id now aid (d : doc) :
  app_doc db aid = Some d →
  app_doc (create_application db apply new_id now).2 aid = Some d.
Proof.
  intros Hdoc.
  destruct (decide (applications_of db (Application.student_id apply)
                      (Application.opening_id apply) = [])) as [Hnone|Hsome].
  - rewrite (create_application_new _ _ _ _ Hnone). cbn [snd].
    unfold app_doc, find_one in *.
    destruct collection_names as (_ & _ & Hname). rewrite Hname in *.
    rewrite db_get_insert.
    destruct (list_find _ (db_get db "application")) as [[i d0]|] eqn:Hfind;
      [|done].
    by rewrite (list_find_app_l _ _ _ _ _ Hfind).
  - by rewrite (create_application_duplicate _ _ _ _ Hsome).
Qed.

Lemma app_doc_fresh db apply new_id now :
  fresh_id new_id db →
  applications_of db (Application.student_id apply) (Application.opening_id apply)
  = [] →
  app_doc (create_application db apply new_id now).2 new_id
  = Some (stored_application apply new_id now).
Proof.
  intros Hfresh Hnone. rewrite (create_application_new _ _ _ _ Hnone).
  cbn [snd]. unfold app_doc, find_one, fresh_id in *.
  destruct collection_names as (_ & _ & ->). rewrite db_get_insert.
  rewrite list_find_app_r.
  2:{ apply list_find_None. eapply Forall_impl; [exact Hfresh|].
      intros d Hd. by rewrite doc_matches_id. }
  cbn [list_find]. rewrite decide_True; [done|].
  apply doc_matches_id. apply lookup_insert_eq.
Qed.

(** One call: the application [aid] stays stored, and its certificate is
    present afterwards exactly when it was present before or the call left
    the application with status "completed". *)
Lemma handle_certificate aid db r (d : doc) :
  app_doc db aid = Some d →
  (completed_in aid db → present "certificate_url" d) →
  ∃ d1 : doc,
    app_doc (handle db r) aid = Some d1 ∧
    (present "certificate_url" d1
     ↔ present "certificate_url" d ∨ completed_in aid (handle db r)).
Proof.
  intros Hdoc Hinv.
  assert (∀ db1, app_doc db1 aid = Some d →
            present "certificate_url" d
            ↔ present "certificate_url" d ∨ completed_in aid db1) as Hsame.
  { intros db1 Hdoc1. split; [by left|]. intros [?|(d0 & Hd0 & Hst)]; [done|].
    apply Hinv. exists d. split; [done|]. congruence. }
  destruct r as [apply new_id now | application_id p now]; cbn [handle].
  { exists d. split; [by apply app_doc_created|].
    apply Hsame. by apply app_doc_created. }
  destruct (ObjectId application_id) as [aid'|] eqn:Hid.
  2:{ rewrite (update_application_invalid _ _ _ _ Hid). cbn [snd]. eauto. }
  destruct (app_doc db aid') as [d0|] eqn:Hdoc0.
  2:{ rewrite (update_application_missing _ _ _ _ _ Hid Hdoc0). cbn [snd].
      eauto. }
  destruct (update_application_found _ _ p now _ _ Hid Hdoc0)
    as (i & Hfind & ->). cbn [snd].
  pose proof (app_doc_updated db aid' i d0 _ aid Hfind
                (update_dict_keeps_id application_id p now d0)) as Hdoc1.
  case_decide as Haid; [subst aid'|].
  2:{ rewrite Hdoc in Hdoc1. eauto. }
  assert (d0 = d) as -> by congruence.
  eexists. split; [exact Hdoc1|].
  unfold completed_in. rewrite Hdoc1. unfold present.
  destruct (decide (ApplicationUpdate.status p = Some "completed")) as [Hc|Hc].
  - assert ((update_dict_of application_id p now ∪ d) !! "certificate_url"
            = Some (certificate_of application_id)) as Hcert.
    { apply lookup_union_Some_l. rewrite update_dict_lookup. by rewrite Hc. }
    split; [|by eauto]. intros _. right. eexists. split; [done|].
    apply lookup_union_Some_l. rewrite update_dict_lookup, patch_lookup.
    by rewrite Hc.
  - assert ((update_dict_of application_id p now ∪ d) !! "certificate_url"
            = d !! "certificate_url") as ->.
    { apply lookup_union_r. rewrite update_dict_lookup.
      by rewrite (decide_False (P := _ = Some "completed")). }
    split; [by left|]. intros [?|(d1 & Hd1 & Hst)]; [done|].
    apply (inj Some) in Hd1. subst d1.
    destruct (ApplicationUpdate.status p) as [s|] eqn:Hs.
    + rewrite (lookup_union_Some_l _ _ _ (VStr s)) in Hst; [congruence|].
      rewrite update_dict_lookup, patch_lookup. by rewrite Hs.
    + rewrite lookup_union_r in Hst.
      2:{ rewrite update_dict_lookup, patch_lookup. by rewrite Hs. }
      apply Hinv. exists d. done.
Qed.

Lemma history_head db rs : ∃ dbs, history db rs = db :: dbs.
Proof. destruct rs; simpl; eauto. Qed.

Lemma history_certificate aid rs : ∀ db (d : doc),
  app_doc db aid = Some d →
  (completed_in aid db → present "certificate_url" d) →
  ∃ d' : doc,
    app_doc (foldl handle db rs) aid = Some d' ∧
    (present "certificate_url" d'
     ↔ present "certificate_url" d ∨ Exists (completed_in aid) (history db rs)).
Proof.
  induction rs as [|r rs IH]; intros db d Hdoc Hinv; cbn [foldl history].
  - exists d. split; [done|]. rewrite Exists_cons, Exists_nil. tauto.
  - destruct (handle_certificate aid db r d Hdoc Hinv) as (d1 & Hdoc1 & Hstep).
    destruct (IH (handle db r) d1 Hdoc1) as (d' & Hdoc' & Hrest).
    { intros Hc. apply Hstep. by right. }
    exists d'. split; [done|]. rewrite Hrest, Hstep, Exists_cons.
    destruct (history_head (handle db r) rs) as (dbs & ->).
    rewrite Exists_cons. tauto.
Qed.

(** C6 (amended): an application created with no certificate reference and
    with a status other than "completed" (as a request that gives only the
    student and the opening is) stays stored through any sequence of
    creates and transitions, and after it its certificate_url is present
    if and only if the application had status "completed" in one of the
    states the sequence went through. *)
Theorem certificate_iff_completed db apply new_id now rs :
  fresh_id new_id db →
  applications_of db (Application.student_id apply) (Application.opening_id apply)
  = [] →
  Application.certificate_url apply = None →
  Application.status apply ≠ Application.completed →
  ∃ d : doc,
    app_doc (foldl handle (create_application db apply new_id now).2 rs) new_id
    = Some d ∧
    (present "certificate_url" d
     ↔ Exists (completed_in new_id)
         (history (create_application db apply new_id now).2 rs)).
Proof.
  intros Hfresh Hnone Hcert Hstatus.
  pose proof (app_doc_fresh db apply new_id now Hfresh Hnone) as Hdoc.
  assert (¬ present "certificate_url" (stored_application apply new_id now))
    as Habsent.
  { intros (v & Hv & Hne). apply Hne.
    unfold stored_application, Application.model_dump in Hv.
    rewrite Hcert in Hv. by simplify_map_eq. }
  destruct (history_certificate new_id rs _ _ Hdoc) as (d & Hd & Hiff).
  { intros (d0 & Hd0 & Hst). exfalso. rewrite Hdoc in Hd0.
    injection Hd0 as <-. unfold stored_application, Application.model_dump in Hst.
    simplify_map_eq. by destruct (Application.status apply). }
  exists d. split; [done|]. rewrite Hiff. tauto.
Qed.

(** *** Serialized documents *)

Lemma notification_name : to_collection_name "Notification" = "notification".
Proof. done. Qed.

Lemma serialize_doc_no_id (d : doc) : serialize_doc d !! "_id" = None.
Proof.
  unfold serialize_doc. rewrite lookup_fmap.
  destruct (d !! "_id") as [[]|];
    rewrite ?lookup_insert_ne by done; by rewrite lookup_delete_eq.
Qed.

Lemma serialize_doc_id (d : doc) v :
  d !! "_id" = Some v → v ≠ VNone →
  serialize_doc d !! "id" = Some (VStr (str v)).
Proof.
  intros Hv Hne. unfold serialize_doc. rewrite lookup_fmap, Hv.
  destruct v; try done; by rewrite lookup_insert_eq.
Qed.

(** Serializing twice is serializing once: the answer of a handler can be
    passed through [serialize_doc] again without change. *)
Theorem serialize_doc_idempotent (d : doc) :
  serialize_doc (serialize_doc d) = serialize_doc d.
Proof.
  pose proof (serialize_doc_no_id d) as Hid.
  unfold serialize_doc at 1. rewrite Hid.
  rewrite delete_id by done.
  unfold serialize_doc. rewrite <- map_fmap_compose.
  apply map_fmap_ext. intros k v _. by destruct v.
Qed.

(** A serialized document has no ["_id"] and holds no [datetime]; its ["id"]
    is [str] of the ["_id"] of the document whenever that is not [None], and
    every other key holds the value of the document, a [datetime] as its
    [isoformat] string. *)
Theorem serialize_doc_shape (d : doc) :
  serialize_doc d !! "_id" = None ∧
  (∀ k v, serialize_doc d !! k = Some v → not_date v) ∧
  (∀ v, d !! "_id" = Some v → v ≠ VNone →
        serialize_doc d !! "id" = Some (VStr (str v))) ∧
  (∀ k t, k ≠ "_id" → k ≠ "id" → d !! k = Some (VDate t) →
          serialize_doc d !! k = Some (VStr (isoformat t))) ∧
  (∀ k v, k ≠ "_id" → k ≠ "id" → d !! k = Some v → not_date v →
          serialize_doc d !! k = Some v) ∧
  (∀ k, k ≠ "id" → d !! k = None → serialize_doc d !! k = None).
Proof.
  split; [apply serialize_doc_no_id|]. split_and!.
  - intros k v. unfold serialize_doc. rewrite lookup_fmap.
    intros (w & _ & ->)%fmap_Some. by destruct w.
  - apply serialize_doc_id.
  - intros k t H1 H2 Hk. by rewrite serialize_doc_lookup, Hk.
  - intros k v H1 H2 Hk Hv. rewrite serialize_doc_lookup, Hk by done.
    by destruct v.
  - intros k H2 Hk. destruct (decide (k = "_id")) as [->|H1].
    + apply serialize_doc_no_id.
    + by rewrite serialize_doc_lookup, Hk.
Qed.

(** *** The matcher: failures, bounds and negative limits *)

Lemma score_loop_raise (student : doc) student_skills (openings : collection)
    scored e :
  score_loop student student_skills openings scored = Raise e → e = TypeError.
Proof.
  revert scored. induction openings as [|o openings IH]; intros scored; [done|].
  cbn [score_loop]. unfold score_opening.
  destruct (py_set _); unfold mbind, result_bind; [by apply IH | congruence].
Qed.

(** [recommend_openings] lets [InvalidId] escape exactly when the student
    identity does not parse, and answers 404 "Student not found" exactly when
    it parses and no stored user carries it. *)
Theorem recommend_failures db student_id limit :
  (recommend_openings db student_id limit = Raise InvalidId
   ↔ ObjectId student_id = None) ∧
  (recommend_openings db student_id limit
   = Raise (HTTPException 404 "Student not found")
   ↔ ∃ uid, ObjectId student_id = Some uid ∧ user_doc db uid = None).
Proof.
  unfold recommend_openings, user_doc.
  destruct (ObjectId student_id) as [uid|]; [|split; [done|]].
  2:{ split; [done|]. by intros (? & ? & _). }
  rewrite (found_find_one _ _ "_id" (VOid uid)) by apply lookup_singleton_eq.
  destruct (find_one _ _) as [student|] eqn:Hst.
  - rewrite bool_decide_eq_true_2 by eauto. cbn [negb default from_option id].
    assert (∀ e, e ≠ TypeError →
              match py_set (get_default student "skills" (VList [])) with
              | Some student_skills =>
                  scored ← score_loop student student_skills
                             (find ∅ (db_get db (to_collection_name "Opening"))) [];
                  Ok ((λ '(s, o), dict_or (serialize_doc o)
                                    {[ "match_score" := VInt s ]})
                        <$> slice_to limit (sort_reverse fst scored))
              | None => Raise TypeError
              end ≠ Raise e) as Hne.
    { intros e He. destruct (py_set _); [|congruence].
      destruct (score_loop _ _ _ _) as [scored|e'] eqn:Hloop;
        unfold mbind, result_bind; [done|].
      apply score_loop_raise in Hloop. congruence. }
    split; (split; [intros H; by apply Hne in H|]).
    + done.
    + intros (u & [= <-] & Hu). congruence.
  - rewrite bool_decide_eq_false_2 by (by intros [? ?]). cbn [negb].
    split; [done|]. split; [eauto|done].
Qed.

Lemma spec_score_bounds (S R : gset string) D Do :
  0 ≤ spec_score S D R Do ≤ Z.of_nat (size S `min` size R) + 1 ∧
  (spec_score S D R Do = 0
   ↔ S ∩ R = ∅ ∧ ¬ (D ≠ None ∧ D ≠ Some "" ∧ D = Do)).
Proof.
  unfold spec_score.
  assert (size (S ∩ R) ≤ size S)%nat
    by apply subseteq_size, intersection_subseteq_l.
  assert (size (S ∩ R) ≤ size R)%nat
    by apply subseteq_size, intersection_subseteq_r.
  pose proof (size_empty_iff (S ∩ R)) as Hempty.
  rewrite leibniz_equiv_iff in Hempty.
  case_bool_decide as Hd; (split; [lia|]).
  - split; [lia|]. by intros [_ ?].
  - rewrite <- Hempty. split; [intros; split; [lia|done] | intros [-> _]; lia].
Qed.

(** Every score that [recommend_openings] reports lies between 0 and one more
    than the smaller of the number of the student's skills and the number of
    the opening's required skills (each counted without repetition); it is 0
    exactly when the opening shares no skill with the student and is not of
    the student's (non-empty) department. *)
Theorem recommend_score_bounds db student_id limit oid (student : doc) :
  ObjectId student_id = Some oid →
  find_one {[ "_id" := VOid oid ]} (db_get db "user") = Some student →
  profile_typed student →
  Forall opening_typed (db_get db "opening") →
  ∃ out,
    recommend_openings db student_id limit = Ok out ∧
    Forall (λ e, ∃ o,
              o ∈ db_get db "opening" ∧
              e = recommendation (match_score e, o) ∧
              0 ≤ match_score e
              ≤ Z.of_nat
                  (size (list_to_set (doc_tags "skills" student) : gset string)
                   `min`
                   size (list_to_set (doc_tags "skills_required" o) : gset string))
                + 1 ∧
              (match_score e = 0
               ↔ (∀ tag, tag ∈ doc_tags "skills" student →
                         tag ∉ doc_tags "skills_required" o) ∧
                 ¬ (doc_department student ≠ None ∧
                    doc_department student ≠ Some "" ∧
                    doc_department student = doc_department o)))
      out.
Proof.
  intros Hid Hst Hty Hop. eexists. split.
  { by eapply recommend_openings_eq. }
  apply Forall_forall. intros e He.
  apply list_elem_of_fmap in He as ([s o] & -> & Hso).
  apply elem_of_slice_to in Hso. rewrite sort_reverse_perm in Hso.
  apply list_elem_of_fmap in Hso as (o' & [= -> ->] & Ho').
  exists o'. rewrite match_score_recommendation. cbn [fst].
  split; [done|]. split; [done|].
  unfold spec_score_of.
  destruct (spec_score_bounds
              (list_to_set (doc_tags "skills" student)) 
              (list_to_set (doc_tags "skills_required" o'))
              (doc_department student) (doc_department o')) as [Hb Hz].
  split; [exact Hb|]. rewrite Hz. 
  assert ((list_to_set (doc_tags "skills" student) : gset string)
            ∩ list_to_set (doc_tags "skills_required" o') = ∅
          ↔ ∀ tag, tag ∈ doc_tags "skills" student →
                   tag ∉ doc_tags "skills_required" o') as ->; [|done].
  rewrite <- leibniz_equiv_iff. split.
  - intros Hd tag H1 H2. apply (not_elem_of_empty (C := gset string) tag).
    rewrite <- Hd. by rewrite elem_of_intersection, !elem_of_list_to_set.
  - intros Hd. apply elem_of_equiv_empty. intros tag.
    rewrite elem_of_intersection, !elem_of_list_to_set. intros [H1 H2].
    by apply (Hd tag).
Qed.

(** A negative limit answers the full ranking without its last [-limit]
    entries (none when there are not that many). *)
Theorem recommend_negative db student_id limit oid (student : doc) :
  ObjectId student_id = Some oid →
  find_one {[ "_id" := VOid oid ]} (db_get db "user") = Some student →
  profile_typed student →
  Forall opening_typed (db_get db "opening") →
  limit < 0 →
  ∃ full out,
    recommend_openings db student_id
      (Z.of_nat (length (db_get db "opening"))) = Ok full ∧
    recommend_openings db student_id limit = Ok out ∧
    length full = length (db_get db "opening") ∧
    out = take (Z.to_nat (Z.of_nat (length (db_get db "opening")) + limit)) full ∧
    length out = Z.to_nat (Z.of_nat (length (db_get db "opening")) + limit).
Proof.
  intros Hid Hst Hty Hop Hlim.
  rewrite (recommend_openings_eq _ _ limit _ _ Hid Hst Hty Hop).
  rewrite (recommend_openings_eq _ _ (Z.of_nat _) _ _ Hid Hst Hty Hop).
  set (ranked := sort_reverse fst _).
  assert (length ranked = length (db_get db "opening")) as Hlen.
  { unfold ranked. by rewrite sort_reverse_perm, length_fmap. }
  exists (recommendation <$> ranked), (recommendation <$> slice_to limit ranked).
  rewrite slice_to_nonneg by lia. rewrite Nat2Z.id.
  rewrite <- Hlen at 1. rewrite firstn_all.
  split; [done|]. split; [done|].
  split; [by rewrite length_fmap|].
  unfold slice_to. destruct (Z.ltb_spec limit 0); [|lia].
  rewrite Hlen, fmap_take. split; [done|].
  rewrite length_take, length_fmap. lia.
Qed.

(** *** Applications along a history *)

Lemma update_dict_other application_id (p : ApplicationUpdate.t) now k :
  k ∉ transition_keys → update_dict_of application_id p now !! k = None.
Proof.
  unfold transition_keys. rewrite !not_elem_of_cons. intros (?&?&?&?&?&?&?&_).
  rewrite update_dict_lookup, patch_lookup. by rewrite !decide_False.
Qed.

(** One call: the application [aid] stays stored, as it was or, after a
    transition of that application, with the written fields over it. *)
Lemma handle_app_doc aid db r (d : doc) :
  app_doc db aid = Some d →
  ∃ d1 : doc,
    app_doc (handle db r) aid = Some d1 ∧
    (d1 = d ∨
     ∃ application_id p now,
       r = Transition application_id p now ∧
       ObjectId application_id = Some aid ∧
       d1 = update_dict_of application_id p now ∪ d).
Proof.
  intros Hdoc.
  destruct r as [apply new_id now | application_id p now]; cbn [handle].
  { exists d. split; [by apply app_doc_created | by left]. }
  destruct (ObjectId application_id) as [aid'|] eqn:Hid.
  2:{ rewrite (update_application_invalid _ _ _ _ Hid). cbn [snd]. eauto. }
  destruct (app_doc db aid') as [d0|] eqn:Hdoc0.
  2:{ rewrite (update_application_missing _ _ _ _ _ Hid Hdoc0). cbn [snd].
      eauto. }
  destruct (update_application_found _ _ p now _ _ Hid Hdoc0)
    as (i & Hfind & ->). cbn [snd].
  pose proof (app_doc_updated db aid' i d0 _ aid Hfind
                (update_dict_keeps_id application_id p now d0)) as Hdoc1.
  case_decide as Haid; [subst aid'|].
  2:{ rewrite Hdoc in Hdoc1. eauto. }
  assert (d0 = d) as -> by congruence.
  eexists. split; [exact Hdoc1|]. right. by exists application_id, p, now.
Qed.

(** An application is never deleted and keeps its identity: through any
    sequence of creates and transitions it stays resolvable under its
    identity, and every field other than the seven that a transition writes
    (so ["_id"], ["student_id"], ["opening_id"], ["created_at"]) keeps its
    value. *)
Theorem application_persists aid rs : ∀ db (d : doc),
  app_doc db aid = Some d →
  ∃ d' : doc,
    app_doc (foldl handle db rs) aid = Some d' ∧
    ∀ k, k ∉ transition_keys → d' !! k = d !! k.
Proof.
  induction rs as [|r rs IH]; intros db d Hdoc; cbn [foldl]; [by eauto|].
  destruct (handle_app_doc aid db r d Hdoc) as (d1 & Hdoc1 & Hd1).
  destruct (IH _ _ Hdoc1) as (d' & Hdoc' & Hkeys).
  exists d'. split; [done|]. intros k Hk. rewrite (Hkeys k Hk).
  destruct Hd1 as [->|(application_id & p & now & _ & _ & ->)]; [done|].
  apply lookup_union_r. by apply update_dict_other.
Qed.

(** A certificate reference, once present, is never removed: no sequence of
    creates and transitions leaves the application without one. *)
Theorem certificate_kept aid rs : ∀ db (d : doc),
  app_doc db aid = Some d →
  present "certificate_url" d →
  ∃ d' : doc,
    app_doc (foldl handle db rs) aid = Some d' ∧ present "certificate_url" d'.
Proof.
  induction rs as [|r rs IH]; intros db d Hdoc Hcert; cbn [foldl]; [by eauto|].
  destruct (handle_app_doc aid db r d Hdoc) as (d1 & Hdoc1 & Hd1).
  apply (IH _ _ Hdoc1).
  destruct Hd1 as [->|(application_id & p & now & _ & _ & ->)]; [done|].
  unfold present.
  destruct (decide (ApplicationUpdate.status p = Some "completed")) as [Hc|Hc].
  - exists (certificate_of application_id). split; [|done].
    apply lookup_union_Some_l. rewrite update_dict_lookup. by rewrite Hc.
  - rewrite lookup_union_r; [done|]. rewrite update_dict_lookup.
    by rewrite (decide_False (P := _ = Some "completed")).
Qed.

Lemma doc_matches_pair student_id opening_id (d : doc) :
  doc_matches {[ "student_id" := VStr student_id;
                 "opening_id" := VStr opening_id ]} d
  ↔ d !! "student_id" = Some (VStr student_id) ∧
    d !! "opening_id" = Some (VStr opening_id).
Proof.
  unfold doc_matches. rewrite map_Forall_insert by done.
  by rewrite map_Forall_singleton.
Qed.

Lemma filter_insert_length {A} (P : A → Prop) `{∀ x, Decision (P x)}
    (l : list A) i x y :
  l !! i = Some x →
  (length (filter P (<[i := y]> l)) + (if decide (P x) then 1 else 0)
   = length (filter P l) + (if decide (P y) then 1 else 0))%nat.
Proof.
  revert i. induction l as [|z l IH]; intros [|i] Hi; try done.
  - simpl in Hi. injection Hi as ->.
    change (<[0%nat := y]> (x :: l)) with (y :: l).
    rewrite !filter_cons. repeat case_decide; simpl; lia.
  - change (<[S i := y]> (z :: l)) with (z :: <[i := y]> l).
    rewrite !filter_cons. specialize (IH i Hi).
    destruct (decide (P z)); simpl; lia.
Qed.

Lemma unique_pairs_handle db r : unique_pairs db → unique_pairs (handle db r).
Proof.
  intros Huniq.
  destruct r as [apply new_id now | application_id p now]; cbn [handle].
  - destruct (decide (applications_of db (Application.student_id apply)
                        (Application.opening_id apply) = [])) as [Hnone|Hsome].
    2:{ by rewrite (create_application_duplicate _ _ _ _ Hsome). }
    rewrite (create_application_new _ _ _ _ Hnone). cbn [snd].
    intros s o. specialize (Huniq s o). unfold applications_of, find in *.
    destruct collection_names as (_ & _ & Hname). rewrite Hname in *.
    rewrite db_get_insert, filter_app, length_app, filter_cons, filter_nil.
    case_decide as Hm; [|simpl; lia].
    apply doc_matches_pair in Hm as [Hs Ho].
    assert (s = Application.student_id apply) as ->.
    { assert (stored_application apply new_id now !! "student_id"
              = Some (VStr (Application.student_id apply))) by done.
      congruence. }
    assert (o = Application.opening_id apply) as ->.
    { assert (stored_application apply new_id now !! "opening_id"
              = Some (VStr (Application.opening_id apply))) by done.
      congruence. }
    by rewrite Hnone.
  - destruct (ObjectId application_id) as [aid|] eqn:Hid.
    2:{ by rewrite (update_application_invalid _ _ _ _ Hid). }
    destruct (app_doc db aid) as [d|] eqn:Hdoc.
    2:{ by rewrite (update_application_missing _ _ _ _ _ Hid Hdoc). }
    destruct (update_application_found _ _ p now _ _ Hid Hdoc)
      as (i & Hfind & ->). cbn [snd].
    apply list_find_Some in Hfind as (Hi & _).
    intros s o. specialize (Huniq s o). unfold applications_of, find in *.
    destruct collection_names as (_ & _ & Hname). rewrite Hname in *.
    rewrite db_get_insert.
    pose proof (filter_insert_length
                  (doc_matches {[ "student_id" := VStr s; "opening_id" := VStr o ]})
                  _ i d (update_dict_of application_id p now ∪ d) Hi) as Hlen.
    assert (doc_matches {[ "student_id" := VStr s; "opening_id" := VStr o ]}
              (update_dict_of application_id p now ∪ d)
            ↔ doc_matches {[ "student_id" := VStr s; "opening_id" := VStr o ]} d)
      as Hsame.
    { rewrite !doc_matches_pair.
      assert ("student_id" ∉ transition_keys) as H1 by compute_done.
      assert ("opening_id" ∉ transition_keys) as H2 by compute_done.
      by rewrite !(lookup_union_r (update_dict_of application_id p now))
        by by apply update_dict_other. }
    repeat case_decide; try tauto; lia.
Qed.

(** At most one application per (student, opening) pair is an invariant:
    when it holds of a store, it holds of every state that a sequence of
    creates and transitions goes through. *)
Theorem unique_pairs_kept rs : ∀ db,
  unique_pairs db → Forall unique_pairs (history db rs).
Proof.
  induction rs as [|r rs IH]; intros db Huniq; cbn [history].
  - constructor; [done|constructor].
  - constructor; [done|]. apply IH. by apply unique_pairs_handle.
Qed.

(** *** Answers, certificates and listings *)

(** A successful transition answers the application as stored after the
    write, serialized: the answer shows the time of the call as the
    [isoformat] string of [updated_at], the identity as ["id"], and no
    ["_id"]. *)
Theorem transition_answer db application_id p now aid (d : doc) :
  ObjectId application_id = Some aid →
  app_doc db aid = Some d →
  ∃ stored : doc,
    app_doc (update_application db application_id p now).2 aid = Some stored ∧
    (update_application db application_id p now).1 = Ok (serialize_doc stored) ∧
    serialize_doc stored !! "updated_at" = Some (VStr (isoformat now)) ∧
    serialize_doc stored !! "id" = Some (VStr (str (VOid aid))) ∧
    serialize_doc stored !! "_id" = None.
Proof.
  intros Hid Hdoc.
  destruct (update_application_found _ _ p now _ _ Hid Hdoc)
    as (i & Hfind & ->). cbn [fst snd].
  pose proof (app_doc_updated db aid i d _ aid Hfind
                (update_dict_keeps_id application_id p now d)) as Hdoc1.
  rewrite decide_True in Hdoc1 by done.
  eexists. split; [exact Hdoc1|]. split; [done|].
  split_and!.
  - rewrite serialize_doc_lookup by done.
    by rewrite (lookup_union_Some_l _ _ _ (VDate now))
      by by rewrite update_dict_lookup.
  - apply serialize_doc_id; [|done]. rewrite update_dict_keeps_id.
    apply list_find_Some in Hfind as (_ & Hm & _). by apply doc_matches_id.
  - apply serialize_doc_no_id.
Qed.

Lemma string_length_app (a s : string) :
  String.length (a +:+ s) = (String.length a + String.length s)%nat.
Proof. induction a as [|c a IH]; simpl; [done|]. by rewrite IH. Qed.

Lemma string_app_inj_r (s a b : string) : a +:+ s = b +:+ s → a = b.
Proof.
  revert b. induction a as [|c a IH]; intros [|c' b] Heq; [done| | |].
  - apply (f_equal String.length) in Heq.
    rewrite !string_length_app in Heq. simpl in Heq. lia.
  - apply (f_equal String.length) in Heq.
    rewrite !string_length_app in Heq. simpl in Heq. lia.
  - simpl in Heq. injection Heq as -> Heq. f_equal. by apply IH.
Qed.

(** Transitions to "completed" requested under different identity strings
    write different certificate references. *)
Theorem certificates_distinct a b (p q : ApplicationUpdate.t) now now' :
  a ≠ b →
  ApplicationUpdate.status p = Some "completed" →
  ApplicationUpdate.status q = Some "completed" →
  update_dict_of a p now !! "certificate_url"
  ≠ update_dict_of b q now' !! "certificate_url".
Proof.
  intros Hab Hp Hq. rewrite !update_dict_lookup. rewrite Hp, Hq.
  rewrite !decide_False, !decide_True by done.
  unfold certificate_of. intros [= Heq]. apply Hab.
  apply (inj (String.app _)) in Heq. by apply string_app_inj_r in Heq.
Qed.

Lemma add_filter_lookup_ne k k' x (filt : doc) :
  k ≠ k' → add_filter k x filt !! k' = filt !! k'.
Proof.
  intros Hk. unfold add_filter. destruct (truthy _); [|done].
  by rewrite lookup_insert_ne.
Qed.

Lemma doc_matches_add_filter k x (filt d : doc) :
  filt !! k = None →
  doc_matches (add_filter k x filt) d ↔ filter_holds k x d ∧ doc_matches filt d.
Proof.
  intros Hk. unfold add_filter, filter_holds.
  destruct x as [s|]; cbn [opt_str from_option truthy]; [|tauto].
  destruct (String.eqb_spec s "") as [->|Hs]; cbn [negb]; [tauto|].
  unfold doc_matches. rewrite map_Forall_insert by done. tauto.
Qed.

(** [list_applications] answers, in stored order, exactly the applications
    that satisfy every filter that is given and not empty: the filters
    combine by conjunction, each an equality on its field. *)
Theorem list_applications_filters db student_id opening_id mentor_id :
  list_applications db student_id opening_id mentor_id
  = serialize_doc <$>
      filter (λ d, filter_holds "student_id" student_id d ∧
                   filter_holds "opening_id" opening_id d ∧
                   filter_holds "mentor_id" mentor_id d)
        (db_get db "application").
Proof.
  unfold list_applications, get_documents, find.
  destruct collection_names as (_ & _ & ->). f_equal.
  apply list_filter_iff. intros d.
  rewrite !doc_matches_add_filter
    by by rewrite ?add_filter_lookup_ne by done.
  unfold doc_matches. pose proof (map_Forall_empty (M := gmap string)
    (λ k v, d !! k = Some v)). tauto.
Qed.

(** [list_users] likewise, on role and email. *)
Theorem list_users_filters db role email :
  list_users db role email
  = serialize_doc <$>
      filter (λ d, filter_holds "role" role d ∧ filter_holds "email" email d)
        (db_get db "user").
Proof.
  unfold list_users, get_documents, find.
  destruct collection_names as (-> & _ & _). f_equal.
  apply list_filter_iff. intros d.
  rewrite !doc_matches_add_filter
    by by rewrite ?add_filter_lookup_ne by done.
  unfold doc_matches. pose proof (map_Forall_empty (M := gmap string)
    (λ k v, d !! k = Some v)). tauto.
Qed.

(** An application that was just created is what listing by its student and
    its opening answers, both not empty: that one application, serialized. *)
Theorem created_application_listed db apply new_id now :
  applications_of db (Application.student_id apply) (Application.opening_id apply)
  = [] →
  Application.student_id apply ≠ "" →
  Application.opening_id apply ≠ "" →
  list_applications (create_application db apply new_id now).2
    (Some (Application.student_id apply)) (Some (Application.opening_id apply))
    None
  = [serialize_doc (stored_application apply new_id now)].
Proof.
  intros Hnone Hs Ho. rewrite (create_application_new _ _ _ _ Hnone). cbn [snd].
  pose proof (applications_of_new db apply new_id now) as Hnew.
  rewrite Hnone in Hnew. cbn [app] in Hnew.
  unfold list_applications, get_documents.
  replace (find _ _) with
    (applications_of
       (<["application" :=
            db_get db "application" ++ [stored_application apply new_id now]]> db)
       (Application.student_id apply) (Application.opening_id apply)).
  { by rewrite Hnew. }
  unfold applications_of, find. apply list_filter_iff. intros d.
  rewrite !doc_matches_add_filter
    by by rewrite ?add_filter_lookup_ne by done.
  rewrite doc_matches_pair. unfold filter_holds, doc_matches.
  pose proof (map_Forall_empty (M := gmap string) (λ k v, d !! k = Some v)).
  tauto.
Qed.

(** The identity that create answers can be used at once for a transition,
    where the library reads back the identity strings it prints: the
    transition succeeds and answers the application of the request, under
    that identity. *)
Theorem created_application_transitions db apply new_id now p now' :
  fresh_id new_id db →
  applications_of db (Application.student_id apply) (Application.opening_id apply)
  = [] →
  ObjectId (str (VOid new_id)) = Some new_id →
  ∃ answer : doc,
    (create_application db apply new_id now).1
    = Ok {[ "id" := VStr (str (VOid new_id)) ]} ∧
    (update_application (create_application db apply new_id now).2
       (str (VOid new_id)) p now').1 = Ok answer ∧
    answer !! "id" = Some (VStr (str (VOid new_id))) ∧
    answer !! "student_id" = Some (VStr (Application.student_id apply)) ∧
    answer !! "opening_id" = Some (VStr (Application.opening_id apply)) ∧
    answer !! "updated_at" = Some (VStr (isoformat now')).
Proof.
  intros Hfresh Hnone Hround.
  pose proof (app_doc_fresh db apply new_id now Hfresh Hnone) as Hdoc.
  destruct (update_application_found _ _ p now' _ _ Hround Hdoc)
    as (i & Hfind & ->).
  rewrite (create_application_new _ _ _ _ Hnone). cbn [fst snd].
  eexists. split; [done|]. split; [done|].
  assert ("student_id" ∉ transition_keys) as H1 by compute_done.
  assert ("opening_id" ∉ transition_keys) as H2 by compute_done.
  split_and!.
  - apply serialize_doc_id; [|done]. by rewrite update_dict_keeps_id.
  - rewrite serialize_doc_lookup by done.
    by rewrite lookup_union_r by by apply update_dict_other.
  - rewrite serialize_doc_lookup by done.
    by rewrite lookup_union_r by by apply update_dict_other.
  - rewrite serialize_doc_lookup by done.
    by rewrite (lookup_union_Some_l _ _ _ (VDate now'))
      by by rewrite update_dict_lookup.
Qed.

(** *** Notifications *)

Lemma mark_notification_read_invalid db notification_id :
  ObjectId notification_id = None →
  mark_notification_read db notification_id
  = (Raise (HTTPException 400 "Invalid notification id"), db).
Proof. unfold mark_notification_read. by intros ->. Qed.

Lemma mark_notification_read_missing db notification_id nid :
  ObjectId notification_id = Some nid →
  notification_doc db nid = None →
  mark_notification_read db notification_id
  = (Raise (HTTPException 404 "Notification not found"), db).
Proof.
  unfold mark_notification_read, notification_doc, find_one, db_update_one.
  intros -> Hnone. by destruct (list_find _ _).
Qed.

Lemma mark_notification_read_found db notification_id nid (d : doc) :
  ObjectId notification_id = Some nid →
  notification_doc db nid = Some d →
  ∃ i,
    list_find (doc_matches {[ "_id" := VOid nid ]}) (db_get db "notification")
    = Some (i, d) ∧
    mark_notification_read db notification_id
    = (Ok (serialize_doc (<["read" := VBool true]> d)),
       <["notification" :=
           <[i := <["read" := VBool true]> d]> (db_get db "notification")]> db).
Proof.
  unfold mark_notification_read, notification_doc, find_one, db_update_one,
    update_one.
  rewrite notification_name. intros ->.
  destruct (list_find _ _) as [[i d']|] eqn:Hfind; [|done].
  intros [= ->]. exists i. split; [done|].
  cbn [fst snd Z.eqb]. rewrite db_get_insert.
  rewrite <- insert_union_singleton_l.
  erewrite list_find_insert_same; [done|exact Hfind|].
  apply doc_matches_id. rewrite lookup_insert_ne by done.
  apply doc_matches_id. by apply list_find_Some in Hfind as (_ & ? & _).
Qed.

(** Marking a notification as read fails with 400 "Invalid notification id"
    exactly when the identity does not parse and with 404 "Notification not
    found" exactly when it parses and no stored notification carries it; it
    fails in no other way, and a failed call writes nothing. *)
Theorem mark_notification_read_failures db notification_id :
  let r := mark_notification_read db notification_id in
  (r.1 = Raise (HTTPException 400 "Invalid notification id")
   ↔ ObjectId notification_id = None) ∧
  (r.1 = Raise (HTTPException 404 "Notification not found")
   ↔ ∃ nid, ObjectId notification_id = Some nid ∧ notification_doc db nid = None) ∧
  ((∃ e, r.1 = Raise e) ↔
   ObjectId notification_id = None ∨
   ∃ nid, ObjectId notification_id = Some nid ∧ notification_doc db nid = None) ∧
  ((∃ e, r.1 = Raise e) → r.2 = db).
Proof.
  intros r. subst r.
  destruct (ObjectId notification_id) as [nid|] eqn:Hid.
  - destruct (notification_doc db nid) as [d|] eqn:Hdoc.
    + destruct (mark_notification_read_found _ _ _ _ Hid Hdoc) as (i & _ & ->).
      cbn [fst snd]. split_and!.
      * split; [done|]. intros; discriminate.
      * split; [done|]. intros (a & [= <-] & Hn). congruence.
      * split; [by intros [? ?]|].
        intros [?|(a & [= <-] & Hn)]; [discriminate|congruence].
      * by intros [? ?].
    + rewrite (mark_notification_read_missing _ _ _ Hid Hdoc). cbn [fst snd].
      split_and!; [done|split; eauto|split; eauto|done].
  - rewrite (mark_notification_read_invalid _ _ Hid). cbn [fst snd].
    split_and!; [done| |split; eauto|done].
    split; [done|]. by intros (? & ? & _).
Qed.

(** A successful mark-as-read sets ["read"] to [True] in the one stored
    notification of that identity and changes nothing else: every other
    field of the notification (also ["updated_at"], which is not stamped
    here) and every other document keep their values; the answer is the
    notification as stored afterwards, serialized. *)
Theorem mark_notification_read_frame db notification_id nid (d : doc) :
  ObjectId notification_id = Some nid →
  notification_doc db nid = Some d →
  ∃ i (d' : doc),
    db_get db "notification" !! i = Some d ∧
    mark_notification_read db notification_id
    = (Ok (serialize_doc d'),
       <["notification" := <[i := d']> (db_get db "notification")]> db) ∧
    notification_doc (mark_notification_read db notification_id).2 nid = Some d' ∧
    d' !! "read" = Some (VBool true) ∧
    (∀ k, k ≠ "read" → d' !! k = d !! k) ∧
    (∀ name j, name ≠ "notification" ∨ j ≠ i →
       db_get (mark_notification_read db notification_id).2 name !! j
       = db_get db name !! j).
Proof.
  intros Hid Hdoc.
  destruct (mark_notification_read_found _ _ _ _ Hid Hdoc) as (i & Hfind & ->).
  cbn [snd]. exists i, (<["read" := VBool true]> d).
  split; [by apply list_find_Some in Hfind as (? & _)|]. split; [done|].
  split_and!.
  - unfold notification_doc, find_one. rewrite notification_name, db_get_insert.
    erewrite list_find_insert_same; [done|exact Hfind|].
    apply doc_matches_id. rewrite lookup_insert_ne by done.
    apply doc_matches_id. by apply list_find_Some in Hfind as (_ & ? & _).
  - apply lookup_insert_eq.
  - intros k Hk. by rewrite lookup_insert_ne.
  - intros name j Hother.
    destruct (decide (name = "notification")) as [->|Hname].
    + rewrite db_get_insert. destruct Hother as [?|Hj]; [done|].
      by rewrite list_lookup_insert_ne.
    + by rewrite db_get_insert_ne.
Qed.

(** Marking as read is idempotent: a second call with the same identity
    answers what the first answered and leaves the store as the first left
    it. *)
Theorem mark_notification_read_twice db notification_id :
  mark_notification_read (mark_notification_read db notification_id).2
    notification_id
  = mark_notification_read db notification_id.
Proof.
  destruct (ObjectId notification_id) as [nid|] eqn:Hid.
  2:{ by rewrite !(mark_notification_read_invalid _ _ Hid). }
  destruct (notification_doc db nid) as [d|] eqn:Hdoc.
  2:{ rewrite (mark_notification_read_missing _ _ _ Hid Hdoc). cbn [snd].
      by rewrite (mark_notification_read_missing _ _ _ Hid Hdoc). }
  destruct (mark_notification_read_found _ _ _ _ Hid Hdoc) as (i & Hfind & ->).
  cbn [snd].
  assert (notification_doc
            (<["notification" :=
                 <[i := <["read" := VBool true]> d]> (db_get db "notification")]> db)
            nid = Some (<["read" := VBool true]> d)) as Hdoc1.
  { unfold notification_doc, find_one. rewrite notification_name, db_get_insert.
    erewrite list_find_insert_same; [done|exact Hfind|].
    apply doc_matches_id. rewrite lookup_insert_ne by done.
    apply doc_matches_id. by apply list_find_Some in Hfind as (_ & ? & _). }
  destruct (mark_notification_read_found _ _ _ _ Hid Hdoc1) as (j & Hfind1 & ->).
  assert (j = i) as ->.
  { unfold notification_doc in Hdoc1. rewrite db_get_insert in Hfind1.
    erewrite list_find_insert_same in Hfind1; [|exact Hfind|]; [congruence|].
    apply doc_matches_id. rewrite lookup_insert_ne by done.
    apply doc_matches_id. by apply list_find_Some in Hfind as (_ & ? & _). }
  rewrite db_get_insert, insert_insert_eq, list_insert_insert_eq.
  by rewrite insert_insert_eq.
Qed.

(** [list_notifications] answers, in stored order, exactly the notifications
    whose ["user_id"] equals the one asked for (an empty string is compared
    like any other) and, under [unread_only], whose ["read"] is [False]. *)
Theorem list_notifications_filters db user_id unread_only :
  list_notifications db user_id unread_only
  = serialize_doc <$>
      filter (λ d : doc, d !! "user_id" = Some (VStr user_id) ∧
                         (unread_only = true → d !! "read" = Some (VBool false)))
        (db_get db "notification").
Proof.
  unfold list_notifications, get_documents, find. rewrite notification_name.
  f_equal. apply list_filter_iff. intros d. unfold doc_matches.
  destruct unread_only.
  - rewrite map_Forall_insert by done. rewrite map_Forall_singleton. tauto.
  - rewrite map_Forall_singleton. split; [by intros ?|tauto].
Qed.

(** Marking a notification as read removes it from the unread list of its
    user when it was unread, and changes the length of no other list. *)
Theorem mark_notification_read_unread db notification_id nid (d : doc) user_id :
  ObjectId notification_id = Some nid →
  notification_doc db nid = Some d →
  length (list_notifications (mark_notification_read db notification_id).2
            user_id false)
  = length (list_notifications db user_id false) ∧
  (length (list_notifications (mark_notification_read db notification_id).2
             user_id true)
   + (if decide (d !! "user_id" = Some (VStr user_id) ∧
                 d !! "read" = Some (VBool false)) then 1 else 0)
   = length (list_notifications db user_id true))%nat.
Proof.
  intros Hid Hdoc.
  destruct (mark_notification_read_found _ _ _ _ Hid Hdoc) as (i & Hfind & ->).
  cbn [snd]. apply list_find_Some in Hfind as (Hi & _).
  unfold list_notifications, get_documents, find.
  rewrite notification_name, db_get_insert, !length_fmap. split.
  - pose proof (filter_insert_length
                  (doc_matches {[ "user_id" := VStr user_id ]}) _ i d
                  (<["read" := VBool true]> d) Hi) as Hlen.
    assert (doc_matches {[ "user_id" := VStr user_id ]} (<["read" := VBool true]> d)
            ↔ doc_matches {[ "user_id" := VStr user_id ]} d) as Hsame.
    { unfold doc_matches. rewrite !map_Forall_singleton.
      by rewrite lookup_insert_ne. }
    repeat case_decide; try tauto; lia.
  - pose proof (filter_insert_length
                  (doc_matches (<["read" := VBool false]>
                                  {[ "user_id" := VStr user_id ]})) _ i d
                  (<["read" := VBool true]> d) Hi) as Hlen.
    assert (¬ doc_matches (<["read" := VBool false]> {[ "user_id" := VStr user_id ]})
              (<["read" := VBool true]> d)) as Hnot.
    { unfold doc_matches. rewrite map_Forall_insert by done.
      rewrite lookup_insert_eq. by intros [[=] _]. }
    assert (doc_matches (<["read" := VBool false]> {[ "user_id" := VStr user_id ]}) d
            ↔ d !! "user_id" = Some (VStr user_id) ∧
              d !! "read" = Some (VBool false)) as Hold.
    { unfold doc_matches. rewrite map_Forall_insert by done.
      rewrite map_Forall_singleton. tauto. }
    repeat case_decide; try tauto; lia.
Qed.

(** A created notification is appended to the list of its user, serialized,
    and to the unread list exactly when the request left it unread. *)
Theorem created_notification_listed db note new_id now :
  let db' := (create_notification db note new_id now).2 in
  let stored := stored_document (Notification.model_dump note) new_id now in
  (create_notification db note new_id now).1
  = Ok {[ "id" := VStr (str (VOid new_id)) ]} ∧
  list_notifications db' (Notification.user_id note) false
  = list_notifications db (Notification.user_id note) false
    ++ [serialize_doc stored] ∧
  list_notifications db' (Notification.user_id note) true
  = list_notifications db (Notification.user_id note) true
    ++ (if Notification.read note then [] else [serialize_doc stored]).
Proof.
  intros db' stored. subst db' stored.
  unfold create_notification, create_document, db_insert_one, insert_one.
  rewrite notification_name.
  replace (_ !! "_id") with (@None value) by done. cbn [fst snd].
  split; [done|].
  unfold list_notifications, get_documents, find.
  rewrite notification_name, db_get_insert, !filter_app, !fmap_app.
  split; f_equal.
  - rewrite filter_cons_True; [done|].
    unfold doc_matches. by rewrite map_Forall_singleton.
  - destruct (Notification.read note) eqn:Hread.
    + rewrite filter_cons_False; [done|]. unfold doc_matches.
      rewrite map_Forall_insert by done. intros [Hr _].
      unfold Notification.model_dump in Hr. rewrite Hread in Hr. done.
    + rewrite filter_cons_True; [done|]. unfold doc_matches.
      rewrite map_Forall_insert by done. rewrite map_Forall_singleton.
      unfold Notification.model_dump. rewrite Hread. done.
Qed.

(** The identity that [create_user] answers can be used at once to ask for
    recommendations, where the library reads back the identity strings it
    prints: the openings are scored from the skills and the department of
    the submitted profile. *)
Theorem created_user_recommended db user new_id now limit :
  Forall (λ d : doc, d !! "_id" ≠ Some (VOid new_id)) (db_get db "user") →
  Forall opening_typed (db_get db "opening") →
  ObjectId (str (VOid new_id)) = Some new_id →
  (create_user db user new_id now).1 = Ok {[ "id" := VStr (str (VOid new_id)) ]} ∧
  recommend_openings (create_user db user new_id now).2 (str (VOid new_id)) limit
  = Ok (recommendation <$>
          slice_to limit
            (sort_reverse fst
               ((λ o, (spec_score (list_to_set (User.skills user))
                         (User.department user)
                         (list_to_set (doc_tags "skills_required" o))
                         (doc_department o), o))
                  <$> db_get db "opening"))).
Proof.
  intros Hfresh Hop Hround.
  unfold create_user, create_document, db_insert_one, insert_one.
  destruct collection_names as (-> & _ & _).
  replace (_ !! "_id") with (@None value) by done. cbn [fst snd].
  split; [done|].
  change (<["_id" := VOid new_id]> _)
    with (stored_document (User.model_dump user) new_id now).
  destruct (stored_user_typed user new_id now) as (Hty & Hskills & Hdep).
  rewrite (recommend_openings_eq _ _ _ new_id
             (stored_document (User.model_dump user) new_id now) Hround).
  - rewrite db_get_insert_ne by done. do 4 f_equal.
    apply list_fmap_ext. intros _ o _. unfold spec_score_of.
    by rewrite Hskills, Hdep.
  - unfold find_one. rewrite db_get_insert. rewrite list_find_app_r.
    2:{ apply list_find_None. eapply Forall_impl; [exact Hfresh|].
        intros d Hd. by rewrite doc_matches_id. }
    cbn [list_find]. rewrite decide_True; [done|].
    apply doc_matches_id. apply lookup_insert_eq.
  - done.
  - by rewrite db_get_insert_ne.
Qed.

End Portal.

(** ** The scenario, run

    The theorems at the stored scenario [campus], with the identities read
    as hexadecimal digits. *)

Lemma recommend_scores_campus :
  hex_ObjectId student1_id = Some 1%N ∧
  find_one {[ "_id" := VOid 1 ]} (db_get campus "user") = Some student1 ∧
  profile_typed student1 ∧
  Forall opening_typed (db_get campus "opening") ∧
  ∃ out,
    recommend_openings hex_ObjectId hex_str_value dec_isoformat campus
      student1_id 10 = Ok out ∧
    out = [dict_or (serialize_doc hex_str_value dec_isoformat opening1)
             {[ "match_score" := VInt 2 ]};
           dict_or (serialize_doc hex_str_value dec_isoformat opening2)
             {[ "match_score" := VInt 2 ]}].
Proof.
  assert (hex_ObjectId student1_id = Some 1%N) as H1 by (vm_compute; reflexivity).
  assert (find_one {[ "_id" := VOid 1 ]} (db_get campus "user") = Some student1)
    as H2 by compute_done.
  assert (profile_typed student1) as H3 by (vm_compute; split; exact I).
  assert (Forall opening_typed (db_get campus "opening")) as H4
    by (repeat constructor).
  split; [exact H1|]. split; [exact H2|]. split; [exact H3|]. split; [exact H4|].
  destruct (recommend_scores hex_ObjectId hex_str_value dec_isoformat campus
              student1_id 10 1%N student1 H1 H2 H3 H4)
    as (out & Hout & Heq & _ & _).
  exists out. split; [exact Hout|]. rewrite Heq. compute_done.
Defined.

Lemma recommend_top_limit_campus :
  hex_ObjectId student1_id = Some 1%N ∧
  find_one {[ "_id" := VOid 1 ]} (db_get campus "user") = Some student1 ∧
  profile_typed student1 ∧
  Forall opening_typed (db_get campus "opening") ∧
  0 ≤ 1 ∧
  ∃ out,
    recommend_openings hex_ObjectId hex_str_value dec_isoformat campus
      student1_id 1 = Ok out ∧
    Z.of_nat (length out) = Z.min 1 (Z.of_nat (length (db_get campus "opening"))) ∧
    StronglySorted (λ a b, match_score b ≤ match_score a) out.
Proof.
  assert (hex_ObjectId student1_id = Some 1%N) as H1 by (vm_compute; reflexivity).
  assert (find_one {[ "_id" := VOid 1 ]} (db_get campus "user") = Some student1)
    as H2 by compute_done.
  assert (profile_typed student1) as H3 by (vm_compute; split; exact I).
  assert (Forall opening_typed (db_get campus "opening")) as H4
    by (repeat constructor).
  assert (0 ≤ 1) as H5 by lia.
  split; [exact H1|]. split; [exact H2|]. split; [exact H3|]. split; [exact H4|].
  split; [exact H5|].
  destruct (recommend_top_limit hex_ObjectId hex_str_value dec_isoformat campus
              student1_id 1 1%N student1 H1 H2 H3 H4 H5)
    as (ranked & out & Hout & _ & _ & _ & _ & Hlen & Hsorted & _).
  exists out. split; [exact Hout|]. split; [exact Hlen|exact Hsorted].
Defined.

(** A negative limit: [scored[:-1]] drops the last entry, so the two
    openings of [campus] give one entry, which is not min(-1, 2). *)
Lemma recommend_negative_limit :
  ∃ out,
    recommend_openings hex_ObjectId hex_str_value dec_isoformat campus
      student1_id (-1) = Ok out ∧
    length out = 1%nat ∧
    Z.of_nat (length out) ≠ Z.min (-1) (Z.of_nat (length (db_get campus "opening"))).
Proof.
  exists [recommendation hex_str_value dec_isoformat (spec_score_of student1 opening1, opening1)].
  split; [compute_done|]. split; [reflexivity|]. vm_compute. discriminate.
Qed.

Lemma create_stores_request_campus :
  applications_of campus "s2" "o2" = [] ∧
  ∃ d : doc,
    create_application hex_str_value campus (Application.defaults "s2" "o2") 5 0
    = (Ok {[ "id" := VStr (hex_str_value (VOid 5)) ]},
       <["application" := db_get campus "application" ++ [d]]> campus) ∧
    d !! "status" = Some (VStr "applied") ∧
    d !! "mentor_id" = Some VNone ∧
    d !! "interview_datetime" = Some VNone ∧
    d !! "interview_location" = Some VNone ∧
    d !! "feedback" = Some VNone ∧
    d !! "certificate_url" = Some VNone.
Proof.
  assert (applications_of campus "s2" "o2" = []) as H1 by compute_done.
  split; [exact H1|].
  destruct (create_stores_request hex_str_value campus
              (Application.defaults "s2" "o2") 5 0 H1)
    as (d & Hcreate & _ & _ & _ & _ & _ & _ & Hdefaults).
  exists d. split; [exact Hcreate|]. exact (Hdefaults "s2" "o2" eq_refl).
Defined.

(** A request body with status "completed" and a mentor is accepted and
    stored as it is. *)
Lemma create_keeps_requested_fields :
  ∃ d : doc,
    create_application hex_str_value campus apply_completed 5 0
    = (Ok {[ "id" := VStr "000000000000000000000005" ]},
       <["application" := [application1; d]]> campus) ∧
    d !! "status" = Some (VStr "completed") ∧
    d !! "status" ≠ Some (VStr "applied") ∧
    d !! "mentor_id" = Some (VStr "m1") ∧
    d !! "mentor_id" ≠ Some VNone.
Proof.
  exists (stored_application apply_completed 5 0).
  split; [compute_done|].
  split; [compute_done|].
  split; [vm_compute; discriminate|].
  split; [compute_done|vm_compute; discriminate].
Qed.

Lemma certificate_idempotent_campus :
  hex_ObjectId application1_id = Some 4%N ∧
  app_doc campus 4 = Some application1 ∧
  ApplicationUpdate.status (patch_status "completed") = Some "completed" ∧
  let first :=
    update_application hex_ObjectId hex_str_value dec_isoformat campus
      application1_id (patch_status "completed") 10 in
  let second :=
    update_application hex_ObjectId hex_str_value dec_isoformat first.2
      application1_id (patch_status "completed") 20 in
  ∃ d1 d2 s1 s2 : doc,
    first.1 = Ok d1 ∧ second.1 = Ok d2 ∧
    app_doc first.2 4 = Some s1 ∧ app_doc second.2 4 = Some s2 ∧
    d1 !! "certificate_url" = Some (certificate_of application1_id) ∧
    d2 !! "certificate_url" = Some (certificate_of application1_id) ∧
    s1 !! "certificate_url" = Some (certificate_of application1_id) ∧
    s2 !! "certificate_url" = Some (certificate_of application1_id).
Proof.
  assert (hex_ObjectId application1_id = Some 4%N) as H1 by compute_done.
  assert (app_doc campus 4 = Some application1) as H2 by compute_done.
  assert (ApplicationUpdate.status (patch_status "completed") = Some "completed")
    as H3 by reflexivity.
  split; [exact H1|]. split; [exact H2|]. split; [exact H3|].
  exact (certificate_idempotent hex_ObjectId hex_str_value dec_isoformat campus
           application1_id (patch_status "completed") (patch_status "completed")
           10 20 4%N application1 H1 H2 H3 H3).
Defined.

Lemma transition_status_verbatim_campus :
  hex_ObjectId application1_id = Some 4%N ∧
  app_doc campus 4 = Some application1 ∧
  ApplicationUpdate.status (patch_status "on hold") = Some "on hold" ∧
  ∃ answer stored : doc,
    (update_application hex_ObjectId hex_str_value dec_isoformat campus
       application1_id (patch_status "on hold") 10).1 = Ok answer ∧
    app_doc
      (update_application hex_ObjectId hex_str_value dec_isoformat campus
         application1_id (patch_status "on hold") 10).2 4 = Some stored ∧
    stored !! "status" = Some (VStr "on hold") ∧
    answer !! "status" = Some (VStr "on hold").
Proof.
  assert (hex_ObjectId application1_id = Some 4%N) as H1 by compute_done.
  assert (app_doc campus 4 = Some application1) as H2 by compute_done.
  assert (ApplicationUpdate.status (patch_status "on hold") = Some "on hold")
    as H3 by reflexivity.
  split; [exact H1|]. split; [exact H2|]. split; [exact H3|].
  exact (transition_status_verbatim hex_ObjectId hex_str_value dec_isoformat
           campus application1_id (patch_status "on hold") 10 4%N application1
           "on hold" H1 H2 H3).
Defined.

Lemma transition_frame_campus :
  hex_ObjectId application1_id = Some 4%N ∧
  app_doc campus 4 = Some application1 ∧
  ∃ d' : doc,
    app_doc
      (update_application hex_ObjectId hex_str_value dec_isoformat campus
         application1_id (patch_status "approved") 10).2 4 = Some d' ∧
    d' !! "status" = Some (VStr "approved") ∧
    d' !! "updated_at" = Some (VDate 10) ∧
    d' !! "student_id" = application1 !! "student_id" ∧
    d' !! "mentor_id" = application1 !! "mentor_id" ∧
    d' !! "certificate_url" = application1 !! "certificate_url".
Proof.
  assert (hex_ObjectId application1_id = Some 4%N) as H1 by compute_done.
  assert (app_doc campus 4 = Some application1) as H2 by compute_done.
  split; [exact H1|]. split; [exact H2|].
  destruct (transition_frame hex_ObjectId hex_str_value dec_isoformat campus
              application1_id (patch_status "approved") 10 4%N application1 H1 H2)
    as (i & d' & _ & _ & Hdoc & Hframe & Hstatus & _ & _ & _ & _ & Hupd & _).
  exists d'. split; [exact Hdoc|]. split; [exact (Hstatus "approved" eq_refl)|].
  split; [exact Hupd|].
  split; [|split]; apply Hframe; unfold unwritten, patch_status;
    cbn [ApplicationUpdate.status ApplicationUpdate.mentor_id
         ApplicationUpdate.interview_datetime
         ApplicationUpdate.interview_location ApplicationUpdate.feedback];
    repeat split; intros; try reflexivity; discriminate.
Defined.

Lemma certificate_iff_completed_campus :
  fresh_id 5 campus ∧
  applications_of campus "s2" "o1" = [] ∧
  Application.certificate_url (Application.defaults "s2" "o1") = None ∧
  Application.status (Application.defaults "s2" "o1") ≠ Application.completed ∧
  ∃ d : doc,
    app_doc
      (foldl (handle hex_ObjectId hex_str_value dec_isoformat)
         (create_application hex_str_value campus
            (Application.defaults "s2" "o1") 5 0).2
         [Transition "000000000000000000000005" (patch_status "completed") 7;
          Transition "000000000000000000000005" (patch_status "rejected") 9])
      5 = Some d ∧
    (present "certificate_url" d
     ↔ Exists (completed_in 5)
         (history hex_ObjectId hex_str_value dec_isoformat
            (create_application hex_str_value campus
               (Application.defaults "s2" "o1") 5 0).2
            [Transition "000000000000000000000005" (patch_status "completed") 7;
             Transition "000000000000000000000005" (patch_status "rejected") 9])).
Proof.
  assert (fresh_id 5 campus) as H1 by (unfold fresh_id; compute_done).
  assert (applications_of campus "s2" "o1" = []) as H2 by compute_done.
  assert (Application.certificate_url (Application.defaults "s2" "o1") = None)
    as H3 by reflexivity.
  assert (Application.status (Application.defaults "s2" "o1")
          ≠ Application.completed) as H4 by discriminate.
  split; [exact H1|]. split; [exact H2|]. split; [exact H3|]. split; [exact H4|].
  exact (certificate_iff_completed hex_ObjectId hex_str_value dec_isoformat
           campus (Application.defaults "s2" "o1") 5 0 _ H1 H2 H3 H4).
Defined.

(** A request body may name a certificate, or ask for status "completed":
    the first application holds a certificate and was never completed, the
    second is completed and holds no certificate. *)
Lemma certificate_not_iff_completed :
  (∃ d : doc,
     app_doc (create_application hex_str_value campus apply_with_certificate 5 0).2 5
     = Some d ∧
     present "certificate_url" d ∧
     ¬ Exists (completed_in 5)
         (history hex_ObjectId hex_str_value dec_isoformat
            (create_application hex_str_value campus apply_with_certificate 5 0).2
            [])) ∧
  (∃ d : doc,
     app_doc (create_application hex_str_value campus apply_completed 5 0).2 5
     = Some d ∧
     ¬ present "certificate_url" d ∧
     Exists (completed_in 5)
       (history hex_ObjectId hex_str_value dec_isoformat
          (create_application hex_str_value campus apply_completed 5 0).2 [])).
Proof.
  split.
  - exists (stored_application apply_with_certificate 5 0).
    assert (app_doc (create_application hex_str_value campus
                       apply_with_certificate 5 0).2 5
            = Some (stored_application apply_with_certificate 5 0)) as Hdoc
      by compute_done.
    split; [exact Hdoc|]. split.
    + exists (VStr "https://example.com/mine.pdf"). split; [compute_done|done].
    + cbn [history]. rewrite Exists_cons, Exists_nil.
      intros [(d & Hd & Hst)|[]]. rewrite Hdoc in Hd.
      apply (inj Some) in Hd. subst d. vm_compute in Hst. discriminate.
  - exists (stored_application apply_completed 5 0).
    assert (app_doc (create_application hex_str_value campus
                       apply_completed 5 0).2 5
            = Some (stored_application apply_completed 5 0)) as Hdoc
      by compute_done.
    split; [exact Hdoc|]. split.
    + intros (v & Hv & Hne). apply Hne. vm_compute in Hv. congruence.
    + cbn [history]. apply Exists_cons_hd.
      exists (stored_application apply_completed 5 0).
      split; [exact Hdoc|compute_done].
Qed.

(** ** Further facts, at the scenario *)

Lemma recommend_score_bounds_campus :
  hex_ObjectId student1_id = Some 1%N ∧
  find_one {[ "_id" := VOid 1 ]} (db_get campus "user") = Some student1 ∧
  profile_typed student1 ∧
  Forall opening_typed (db_get campus "opening") ∧
  ∃ out,
    recommend_openings hex_ObjectId hex_str_value dec_isoformat campus
      student1_id 10 = Ok out ∧
    Forall (λ e, 0 ≤ match_score e ≤ 3) out.
Proof.
  assert (hex_ObjectId student1_id = Some 1%N) as H1 by compute_done.
  assert (find_one {[ "_id" := VOid 1 ]} (db_get campus "user") = Some student1)
    as H2 by compute_done.
  assert (profile_typed student1) as H3 by (vm_compute; split; exact I).
  assert (Forall opening_typed (db_get campus "opening")) as H4
    by (repeat constructor).
  split; [exact H1|]. split; [exact H2|]. split; [exact H3|]. split; [exact H4|].
  destruct (recommend_score_bounds hex_ObjectId hex_str_value dec_isoformat
              campus student1_id 10 1%N student1 H1 H2 H3 H4) as (out & Hout & Hb).
  exists out. split; [exact Hout|].
  eapply Forall_impl; [exact Hb|]. intros e (o & _ & _ & [Hlo Hhi] & _).
  split; [exact Hlo|]. etransitivity; [exact Hhi|].
  assert (size (list_to_set (doc_tags "skills" student1) : gset string) = 2%nat)
    as -> by compute_done.
  lia.
Defined.

Lemma recommend_negative_campus :
  hex_ObjectId student1_id = Some 1%N ∧
  find_one {[ "_id" := VOid 1 ]} (db_get campus "user") = Some student1 ∧
  profile_typed student1 ∧
  Forall opening_typed (db_get campus "opening") ∧
  -1 < 0 ∧
  ∃ full out,
    recommend_openings hex_ObjectId hex_str_value dec_isoformat campus
      student1_id (Z.of_nat (length (db_get campus "opening"))) = Ok full ∧
    recommend_openings hex_ObjectId hex_str_value dec_isoformat campus
      student1_id (-1) = Ok out ∧
    out = take (Z.to_nat (Z.of_nat (length (db_get campus "opening")) + -1)) full.
Proof.
  assert (hex_ObjectId student1_id = Some 1%N) as H1 by compute_done.
  assert (find_one {[ "_id" := VOid 1 ]} (db_get campus "user") = Some student1)
    as H2 by compute_done.
  assert (profile_typed student1) as H3 by (vm_compute; split; exact I).
  assert (Forall opening_typed (db_get campus "opening")) as H4
    by (repeat constructor).
  assert (-1 < 0) as H5 by lia.
  split; [exact H1|]. split; [exact H2|]. split; [exact H3|]. split; [exact H4|].
  split; [exact H5|].
  destruct (recommend_negative hex_ObjectId hex_str_value dec_isoformat
              campus student1_id (-1) 1%N student1 H1 H2 H3 H4 H5)
    as (full & out & Hfull & Hout & _ & Htake & _).
  exists full, out. split; [exact Hfull|]. split; [exact Hout|exact Htake].
Defined.

Lemma application_persists_campus :
  app_doc campus 4 = Some application1 ∧
  ∃ d' : doc,
    app_doc
      (foldl (handle hex_ObjectId hex_str_value dec_isoformat) campus
         [Transition application1_id (patch_status "approved") 3;
          Create (Application.defaults "s2" "o1") 5 4])
      4 = Some d' ∧
    ∀ k, k ∉ transition_keys → d' !! k = application1 !! k.
Proof.
  assert (app_doc campus 4 = Some application1) as H1 by compute_done.
  split; [exact H1|].
  exact (application_persists hex_ObjectId hex_str_value dec_isoformat 4%N _
           campus application1 H1).
Defined.

Lemma certificate_kept_campus :
  app_doc (create_application hex_str_value campus apply_with_certificate 5 0).2 5
  = Some (stored_application apply_with_certificate 5 0) ∧
  present "certificate_url" (stored_application apply_with_certificate 5 0) ∧
  ∃ d' : doc,
    app_doc
      (foldl (handle hex_ObjectId hex_str_value dec_isoformat)
         (create_application hex_str_value campus apply_with_certificate 5 0).2
         [Transition "000000000000000000000005" (patch_status "rejected") 3])
      5 = Some d' ∧
    present "certificate_url" d'.
Proof.
  assert (app_doc (create_application hex_str_value campus
                     apply_with_certificate 5 0).2 5
          = Some (stored_application apply_with_certificate 5 0)) as H1
    by compute_done.
  assert (present "certificate_url" (stored_application apply_with_certificate 5 0))
    as H2.
  { exists (VStr "https://example.com/mine.pdf"). split; [compute_done|discriminate]. }
  split; [exact H1|]. split; [exact H2|].
  exact (certificate_kept hex_ObjectId hex_str_value dec_isoformat 5%N _ _ _ H1 H2).
Defined.

Lemma unique_pairs_kept_campus :
  unique_pairs campus ∧
  Forall unique_pairs
    (history hex_ObjectId hex_str_value dec_isoformat campus
       [Create (Application.defaults "s1" "o1") 9 1;
        Create (Application.defaults "s2" "o1") 10 2;
        Transition application1_id (patch_status "completed") 3]).
Proof.
  assert (unique_pairs campus) as H1.
  { intros s o. unfold applications_of, find.
    etransitivity; [apply length_filter|]. compute_done. }
  split; [exact H1|].
  exact (unique_pairs_kept hex_ObjectId hex_str_value dec_isoformat _ campus H1).
Defined.

Lemma transition_answer_campus :
  hex_ObjectId application1_id = Some 4%N ∧
  app_doc campus 4 = Some application1 ∧
  ∃ stored : doc,
    (update_application hex_ObjectId hex_str_value dec_isoformat campus
       application1_id (patch_status "approved") 10).1
    = Ok (serialize_doc hex_str_value dec_isoformat stored) ∧
    serialize_doc hex_str_value dec_isoformat stored !! "updated_at"
    = Some (VStr (dec_isoformat 10)) ∧
    serialize_doc hex_str_value dec_isoformat stored !! "id"
    = Some (VStr (hex_str_value (VOid 4))).
Proof.
  assert (hex_ObjectId application1_id = Some 4%N) as H1 by compute_done.
  assert (app_doc campus 4 = Some application1) as H2 by compute_done.
  split; [exact H1|]. split; [exact H2|].
  destruct (transition_answer hex_ObjectId hex_str_value dec_isoformat campus
              application1_id (patch_status "approved") 10 4%N application1 H1 H2)
    as (stored & _ & Hans & Hupd & Hid & _).
  exists stored. split; [exact Hans|]. split; [exact Hupd|exact Hid].
Defined.

Lemma certificates_distinct_campus :
  application1_id ≠ "000000000000000000000005" ∧
  ApplicationUpdate.status (patch_status "completed") = Some "completed" ∧
  update_dict_of application1_id (patch_status "completed") 1 !! "certificate_url"
  ≠ update_dict_of "000000000000000000000005" (patch_status "completed") 2
      !! "certificate_url".
Proof.
  assert (application1_id ≠ "000000000000000000000005") as H1 by discriminate.
  assert (ApplicationUpdate.status (patch_status "completed") = Some "completed")
    as H2 by reflexivity.
  split; [exact H1|]. split; [exact H2|].
  exact (certificates_distinct _ _ _ _ 1 2 H1 H2 H2).
Defined.

Lemma created_application_listed_campus :
  applications_of campus "s2" "o2" = [] ∧
  "s2" ≠ "" ∧ "o2" ≠ "" ∧
  list_applications hex_str_value dec_isoformat
    (create_application hex_str_value campus (Application.defaults "s2" "o2") 5 0).2
    (Some "s2") (Some "o2") None
  = [serialize_doc hex_str_value dec_isoformat
       (stored_application (Application.defaults "s2" "o2") 5 0)].
Proof.
  assert (applications_of campus "s2" "o2" = []) as H1 by compute_done.
  assert ("s2" ≠ "") as H2 by discriminate.
  assert ("o2" ≠ "") as H3 by discriminate.
  split; [exact H1|]. split; [exact H2|]. split; [exact H3|].
  exact (created_application_listed hex_ObjectId hex_str_value dec_isoformat campus
           (Application.defaults "s2" "o2") 5 0 H1 H2 H3).
Defined.

Lemma created_application_transitions_campus :
  fresh_id 5 campus ∧
  applications_of campus "s2" "o2" = [] ∧
  hex_ObjectId (hex_str_value (VOid 5)) = Some 5%N ∧
  ∃ answer : doc,
    (update_application hex_ObjectId hex_str_value dec_isoformat
       (create_application hex_str_value campus
          (Application.defaults "s2" "o2") 5 0).2
       (hex_str_value (VOid 5)) (patch_status "under_review") 8).1 = Ok answer ∧
    answer !! "student_id" = Some (VStr "s2") ∧
    answer !! "opening_id" = Some (VStr "o2").
Proof.
  assert (fresh_id 5 campus) as H1 by (unfold fresh_id; compute_done).
  assert (applications_of campus "s2" "o2" = []) as H2 by compute_done.
  assert (hex_ObjectId (hex_str_value (VOid 5)) = Some 5%N) as H3 by compute_done.
  split; [exact H1|]. split; [exact H2|]. split; [exact H3|].
  destruct (created_application_transitions hex_ObjectId hex_str_value
              dec_isoformat campus (Application.defaults "s2" "o2") 5 0
              (patch_status "under_review") 8 H1 H2 H3)
    as (answer & _ & Hans & _ & Hs & Ho & _).
  exists answer. split; [exact Hans|]. split; [exact Hs|exact Ho].
Defined.

Lemma mark_notification_read_frame_campus :
  hex_ObjectId note1_id = Some 6%N ∧
  notification_doc campus_notes 6 = Some note1 ∧
  ∃ d' : doc,
    notification_doc
      (mark_notification_read hex_ObjectId hex_str_value dec_isoformat
         campus_notes note1_id).2 6 = Some d' ∧
    d' !! "read" = Some (VBool true) ∧
    d' !! "message" = note1 !! "message".
Proof.
  assert (hex_ObjectId note1_id = Some 6%N) as H1 by compute_done.
  assert (notification_doc campus_notes 6 = Some note1) as H2 by compute_done.
  split; [exact H1|]. split; [exact H2|].
  destruct (mark_notification_read_frame hex_ObjectId hex_str_value dec_isoformat
              campus_notes note1_id 6%N note1 H1 H2)
    as (i & d' & _ & _ & Hdoc & Hread & Hkeep & _).
  exists d'. split; [exact Hdoc|]. split; [exact Hread|].
  apply Hkeep. discriminate.
Defined.

Lemma mark_notification_read_unread_campus :
  hex_ObjectId note1_id = Some 6%N ∧
  notification_doc campus_notes 6 = Some note1 ∧
  length (list_notifications hex_str_value dec_isoformat
            (mark_notification_read hex_ObjectId hex_str_value dec_isoformat
               campus_notes note1_id).2 "u1" true) = 0%nat ∧
  length (list_notifications hex_str_value dec_isoformat campus_notes "u1" true)
  = 1%nat.
Proof.
  assert (hex_ObjectId note1_id = Some 6%N) as H1 by compute_done.
  assert (notification_doc campus_notes 6 = Some note1) as H2 by compute_done.
  split; [exact H1|]. split; [exact H2|].
  destruct (mark_notification_read_unread hex_ObjectId hex_str_value dec_isoformat
              campus_notes note1_id 6%N note1 "u1" H1 H2) as [_ Hunread].
  assert (length (list_notifications hex_str_value dec_isoformat campus_notes
                    "u1" true) = 1%nat) as Hone by compute_done.
  split; [|exact Hone]. rewrite Hone in Hunread.
  rewrite decide_True in Hunread by (split; compute_done). lia.
Defined.

Lemma created_user_recommended_campus :
  Forall (λ d : doc, d !! "_id" ≠ Some (VOid 7)) (db_get campus "user") ∧
  Forall opening_typed (db_get campus "opening") ∧
  hex_ObjectId (hex_str_value (VOid 7)) = Some 7%N ∧
  ∃ out,
    recommend_openings hex_ObjectId hex_str_value dec_isoformat
      (create_user hex_str_value campus profile2 7 0).2
      (hex_str_value (VOid 7)) 10 = Ok out ∧
    match_score <$> out = [3; 0].
Proof.
  assert (Forall (λ d : doc, d !! "_id" ≠ Some (VOid 7)) (db_get campus "user"))
    as H1 by compute_done.
  assert (Forall opening_typed (db_get campus "opening")) as H2
    by (repeat constructor).
  assert (hex_ObjectId (hex_str_value (VOid 7)) = Some 7%N) as H3 by compute_done.
  split; [exact H1|]. split; [exact H2|]. split; [exact H3|].
  destruct (created_user_recommended hex_ObjectId hex_str_value dec_isoformat
              campus profile2 7 0 10 H1 H2 H3) as [_ Hrec].
  eexists. split; [exact Hrec|]. compute_done.
Defined.
